(** * PortugolExecutor: the execution orchestrator of Portugol Webstudio

    A shallow embedding of [packages/runner/src/PortugolExecutor.ts].

    The executor is one mutable object that talks to the host through four
    rxjs subjects and to a replaceable runner through the runner's own
    subjects.  The embedding threads a [World] through every method: the
    fields of the object, the runners constructed so far (a heap indexed by
    construction order, so that a retired runner can still be observed), and
    the trace of values the host has received on each public subject.
    Methods are computations in a small state-and-exception monad; a thrown
    JavaScript error is the [Thrown] outcome.

    Naming: the source's [$] suffix is written [_s] ([stdOut$] is
    [stdOut_s], the private subscription field [_stdOut$] is [_stdOut_s]). *)

From stdpp Require Import base list strings.
From Stdlib Require Import ZArith DecimalString Lia.

Open Scope string_scope.

(** ** JavaScript strings

    A [string] stands for a JavaScript string, one character per element.
    The message literals are carried in the spelling of the source file. *)
Module Js.

Definition chr (n : nat) : string := String (Ascii.ascii_of_nat n) EmptyString.

(** The escapes ["\b"], ["\r"] and ["\n"]. *)
Definition BS : string := chr 8.
Definition CR : string := chr 13.
Definition LF : string := chr 10.

(** [s.slice(0, -1)]: every character but the last; the empty string
    stays empty. *)
Definition slice_0_m1 (s : string) : string :=
  String.substring 0 (String.length s - 1) s.

(** [s.includes(pat)] *)
Fixpoint includes (s pat : string) : bool :=
  String.prefix pat s ||
  match s with
  | EmptyString => false
  | String _ s' => includes s' pat
  end.

(** [xs.join("")] on an array of strings. *)
Definition join (xs : list string) : string := String.concat "" xs.

(** Template interpolation of integers. *)
Definition of_nat (n : nat) : string := NilZero.string_of_uint (Nat.to_uint n).
Definition of_Z (z : Z) : string := NilZero.string_of_int (Z.to_int z).


End Js.

(** ** Data *)

(** [PortugolCodeError], as far as the executor reads it. *)
Record PortugolCodeError := {
  message : string;
  startLine : Z;
  startCol : Z;
}.

(** The [times] object: one duration per phase.  A reading of
    [performance.now()] and the [time] of a [finish] event are integers of
    one fixed clock unit; the executor only subtracts and prints them. *)
Record Times := {
  parse : Z;
  check : Z;
  transpile : Z;
}.

(** The argument of [runTranspiled]. *)
Record Request := {
  code : string;
  js : string;
  errors : list PortugolCodeError;
  parseErrors : list PortugolCodeError;
  times : Times;
}.

(** [PortugolEvent], a union tagged by [type]. *)
Inductive PortugolEvent :=
| Ev_finish (time : Z)
| Ev_clear
| Ev_error (msg : string)
| Ev_parseError (errs : list PortugolCodeError)
| Ev_other (type : string).

(** Modelled from the spec: [IPortugolRunner] is imported from
    [./runners/IPortugolRunner.js], which is not part of this file.  A runner
    exposes an input channel, an output stream, a pending-input stream, a
    running stream, [run()] with its lifecycle-event stream, a serialized
    form and [destroy()].  Each stream is a plain subject: it keeps the
    subscriptions made on it in order, [true] while a subscription is open,
    and delivers a value to the open ones.  The subscriber of the lifecycle
    stream closes over the [times] of its launch.  [destroy()] is
    fire-and-forget for the executor; whether a destroyed runner goes on
    emitting is the runner's own contract, so the model counts the calls and
    lets a runner emit at any time.  Of the runner's operations only the
    constructor can throw. *)
Record Runner := {
  r_js : string;
  r_byteCode : string;
  r_stdIn : list string;
  r_stdOut_s : list bool;
  r_waitingForInput_s : list bool;
  r_running_s : list bool;
  r_run_s : list (bool * Times);
  r_run_calls : nat;
  r_destroy_calls : nat;
}.

(** What [new this.runner(js)] can do: hand back a runner with its
    serialized form, hand back nothing usable, or throw. *)
Inductive Construction :=
| Built (byteCode : string)
| NoHandle
| Fails (msg : string).

Inductive Stream := S_stdOut | S_waitingForInput | S_running | S_run.

(** A [Subscription] object knows the runner and stream it was made on and
    its position among that stream's subscriptions. *)
Record Subscription := { sub_runner : nat; sub_stream : Stream; sub_index : nat }.

(** The fields of the [PortugolExecutor] object. *)
Record PortugolExecutor := {
  _runner : option nat;
  byteCode : string;
  stdInBuffer : string;
  stdOut : string;
  _stdOut_s : option Subscription;
  waitingForInput : bool;
  _waitingForInput_s : option Subscription;
  running : bool;
  _running_s : option Subscription;
  errorListener : list PortugolCodeError;
}.

(** What the host has observed, oldest first: the values emitted on the four
    public subjects, the calls of the (empty-bodied) [#printTimes] hook with
    the [execution] member when present, and the lines of [console.error]. *)
Record Host := {
  stdOut_s : list string;
  waitingForInput_s : list bool;
  running_s : list bool;
  events : list PortugolEvent;
  printTimes_calls : list (Times * option Z);
  console_error : list string;
}.

Record World := {
  this : PortugolExecutor;
  host : Host;
  heap : list Runner;
  ticks : nat;
}.

(** ** Field updates

    Assignments to one field of the object; the private subscription fields
    [_stdOut_s], [_waitingForInput_s] and [_running_s] have none because the
    source never assigns them. *)

Definition set_runner (v : option nat) (e : PortugolExecutor) : PortugolExecutor :=
  {| _runner := v;
     byteCode := byteCode e;
     stdInBuffer := stdInBuffer e;
     stdOut := stdOut e;
     _stdOut_s := _stdOut_s e;
     waitingForInput := waitingForInput e;
     _waitingForInput_s := _waitingForInput_s e;
     running := running e;
     _running_s := _running_s e;
     errorListener := errorListener e |}.

Definition set_byteCode (v : string) (e : PortugolExecutor) : PortugolExecutor :=
  {| _runner := _runner e;
     byteCode := v;
     stdInBuffer := stdInBuffer e;
     stdOut := stdOut e;
     _stdOut_s := _stdOut_s e;
     waitingForInput := waitingForInput e;
     _waitingForInput_s := _waitingForInput_s e;
     running := running e;
     _running_s := _running_s e;
     errorListener := errorListener e |}.

Definition set_stdInBuffer (v : string) (e : PortugolExecutor) : PortugolExecutor :=
  {| _runner := _runner e;
     byteCode := byteCode e;
     stdInBuffer := v;
     stdOut := stdOut e;
     _stdOut_s := _stdOut_s e;
     waitingForInput := waitingForInput e;
     _waitingForInput_s := _waitingForInput_s e;
     running := running e;
     _running_s := _running_s e;
     errorListener := errorListener e |}.

Definition set_stdOut (v : string) (e : PortugolExecutor) : PortugolExecutor :=
  {| _runner := _runner e;
     byteCode := byteCode e;
     stdInBuffer := stdInBuffer e;
     stdOut := v;
     _stdOut_s := _stdOut_s e;
     waitingForInput := waitingForInput e;
     _waitingForInput_s := _waitingForInput_s e;
     running := running e;
     _running_s := _running_s e;
     errorListener := errorListener e |}.

Definition set_waitingForInput (v : bool) (e : PortugolExecutor) : PortugolExecutor :=
  {| _runner := _runner e;
     byteCode := byteCode e;
     stdInBuffer := stdInBuffer e;
     stdOut := stdOut e;
     _stdOut_s := _stdOut_s e;
     waitingForInput := v;
     _waitingForInput_s := _waitingForInput_s e;
     running := running e;
     _running_s := _running_s e;
     errorListener := errorListener e |}.

Definition set_running (v : bool) (e : PortugolExecutor) : PortugolExecutor :=
  {| _runner := _runner e;
     byteCode := byteCode e;
     stdInBuffer := stdInBuffer e;
     stdOut := stdOut e;
     _stdOut_s := _stdOut_s e;
     waitingForInput := waitingForInput e;
     _waitingForInput_s := _waitingForInput_s e;
     running := v;
     _running_s := _running_s e;
     errorListener := errorListener e |}.

Definition set_errorListener (v : list PortugolCodeError) (e : PortugolExecutor) : PortugolExecutor :=
  {| _runner := _runner e;
     byteCode := byteCode e;
     stdInBuffer := stdInBuffer e;
     stdOut := stdOut e;
     _stdOut_s := _stdOut_s e;
     waitingForInput := waitingForInput e;
     _waitingForInput_s := _waitingForInput_s e;
     running := running e;
     _running_s := _running_s e;
     errorListener := v |}.

(** [subject.next(v)] on a public subject: the host receives [v]. *)
Definition push_stdOut_s (v : string) (h : Host) : Host :=
  {| stdOut_s := stdOut_s h ++ [v];
     waitingForInput_s := waitingForInput_s h;
     running_s := running_s h;
     events := events h;
     printTimes_calls := printTimes_calls h;
     console_error := console_error h |}.

Definition push_waitingForInput_s (v : bool) (h : Host) : Host :=
  {| stdOut_s := stdOut_s h;
     waitingForInput_s := waitingForInput_s h ++ [v];
     running_s := running_s h;
     events := events h;
     printTimes_calls := printTimes_calls h;
     console_error := console_error h |}.

Definition push_running_s (v : bool) (h : Host) : Host :=
  {| stdOut_s := stdOut_s h;
     waitingForInput_s := waitingForInput_s h;
     running_s := running_s h ++ [v];
     events := events h;
     printTimes_calls := printTimes_calls h;
     console_error := console_error h |}.

Definition push_events (v : PortugolEvent) (h : Host) : Host :=
  {| stdOut_s := stdOut_s h;
     waitingForInput_s := waitingForInput_s h;
     running_s := running_s h;
     events := events h ++ [v];
     printTimes_calls := printTimes_calls h;
     console_error := console_error h |}.

Definition push_printTimes_calls (v : Times * option Z) (h : Host) : Host :=
  {| stdOut_s := stdOut_s h;
     waitingForInput_s := waitingForInput_s h;
     running_s := running_s h;
     events := events h;
     printTimes_calls := printTimes_calls h ++ [v];
     console_error := console_error h |}.

Definition push_console_error (v : string) (h : Host) : Host :=
  {| stdOut_s := stdOut_s h;
     waitingForInput_s := waitingForInput_s h;
     running_s := running_s h;
     events := events h;
     printTimes_calls := printTimes_calls h;
     console_error := console_error h ++ [v] |}.

Definition on_this (f : PortugolExecutor -> PortugolExecutor) (w : World) : World :=
  {| this := f (this w); host := host w; heap := heap w; ticks := ticks w |}.

Definition on_host (f : Host -> Host) (w : World) : World :=
  {| this := this w; host := f (host w); heap := heap w; ticks := ticks w |}.

Definition on_heap (f : list Runner -> list Runner) (w : World) : World :=
  {| this := this w; host := host w; heap := f (heap w); ticks := ticks w |}.

Definition tick (w : World) : World :=
  {| this := this w; host := host w; heap := heap w; ticks := S (ticks w) |}.

(** ** The runner heap *)

Definition fresh_runner (js bc : string) : Runner :=
  {| r_js := js; r_byteCode := bc; r_stdIn := [];
     r_stdOut_s := []; r_waitingForInput_s := []; r_running_s := [];
     r_run_s := []; r_run_calls := 0; r_destroy_calls := 0 |}.

(** [runner.stdIn.next(line)] *)
Definition receive_stdIn (line : string) (r : Runner) : Runner :=
  {| r_js := r_js r; r_byteCode := r_byteCode r; r_stdIn := r_stdIn r ++ [line];
     r_stdOut_s := r_stdOut_s r; r_waitingForInput_s := r_waitingForInput_s r;
     r_running_s := r_running_s r; r_run_s := r_run_s r;
     r_run_calls := r_run_calls r; r_destroy_calls := r_destroy_calls r |}.

Definition with_stdOut_s (l : list bool) (r : Runner) : Runner :=
  {| r_js := r_js r; r_byteCode := r_byteCode r; r_stdIn := r_stdIn r;
     r_stdOut_s := l; r_waitingForInput_s := r_waitingForInput_s r;
     r_running_s := r_running_s r; r_run_s := r_run_s r;
     r_run_calls := r_run_calls r; r_destroy_calls := r_destroy_calls r |}.

Definition with_waitingForInput_s (l : list bool) (r : Runner) : Runner :=
  {| r_js := r_js r; r_byteCode := r_byteCode r; r_stdIn := r_stdIn r;
     r_stdOut_s := r_stdOut_s r; r_waitingForInput_s := l;
     r_running_s := r_running_s r; r_run_s := r_run_s r;
     r_run_calls := r_run_calls r; r_destroy_calls := r_destroy_calls r |}.

Definition with_running_s (l : list bool) (r : Runner) : Runner :=
  {| r_js := r_js r; r_byteCode := r_byteCode r; r_stdIn := r_stdIn r;
     r_stdOut_s := r_stdOut_s r; r_waitingForInput_s := r_waitingForInput_s r;
     r_running_s := l; r_run_s := r_run_s r;
     r_run_calls := r_run_calls r; r_destroy_calls := r_destroy_calls r |}.

Definition with_run_s (l : list (bool * Times)) (r : Runner) : Runner :=
  {| r_js := r_js r; r_byteCode := r_byteCode r; r_stdIn := r_stdIn r;
     r_stdOut_s := r_stdOut_s r; r_waitingForInput_s := r_waitingForInput_s r;
     r_running_s := r_running_s r; r_run_s := l;
     r_run_calls := r_run_calls r; r_destroy_calls := r_destroy_calls r |}.

(** [runner.run()] *)
Definition call_run (r : Runner) : Runner :=
  {| r_js := r_js r; r_byteCode := r_byteCode r; r_stdIn := r_stdIn r;
     r_stdOut_s := r_stdOut_s r; r_waitingForInput_s := r_waitingForInput_s r;
     r_running_s := r_running_s r; r_run_s := r_run_s r;
     r_run_calls := S (r_run_calls r); r_destroy_calls := r_destroy_calls r |}.

(** [runner.destroy()] *)
Definition call_destroy (r : Runner) : Runner :=
  {| r_js := r_js r; r_byteCode := r_byteCode r; r_stdIn := r_stdIn r;
     r_stdOut_s := r_stdOut_s r; r_waitingForInput_s := r_waitingForInput_s r;
     r_running_s := r_running_s r; r_run_s := r_run_s r;
     r_run_calls := r_run_calls r; r_destroy_calls := S (r_destroy_calls r) |}.

(** [subscription.unsubscribe()]: the subscription is closed where it was
    made; closing a closed or unknown one changes nothing. *)
Definition close (s : Subscription) (r : Runner) : Runner :=
  match sub_stream s with
  | S_stdOut => with_stdOut_s (<[sub_index s := false]> (r_stdOut_s r)) r
  | S_waitingForInput =>
      with_waitingForInput_s (<[sub_index s := false]> (r_waitingForInput_s r)) r
  | S_running => with_running_s (<[sub_index s := false]> (r_running_s r)) r
  | S_run => with_run_s (alter (fun p => (false, snd p)) (sub_index s) (r_run_s r)) r
  end.

Definition open_runs (l : list (bool * Times)) : list Times :=
  snd <$> filter (fun p => fst p = true) l.

(** ** Computations *)

Inductive Outcome (A : Type) : Type :=
| Normal (a : A) (w : World)
| Thrown (e : string) (w : World).
Arguments Normal {A} a w.
Arguments Thrown {A} e w.

Definition M (A : Type) : Type := World -> Outcome A.

#[global] Instance M_ret : MRet M := fun A a w => Normal a w.

#[global] Instance M_bind : MBind M := fun A B f m w =>
  match m w with
  | Normal a w' => f a w'
  | Thrown e w' => Thrown e w'
  end.

Definition throw {A} (e : string) : M A := fun w => Thrown e w.

(** [try { body } catch (error) { handler }] *)
Definition try_catch (body : M unit) (handler : string -> M unit) : M unit := fun w =>
  match body w with
  | Normal _ w' => Normal tt w'
  | Thrown e w' => handler e w'
  end.

(** The world a computation leaves behind, however it ended. *)
Definition world_of {A} (o : Outcome A) : World :=
  match o with
  | Normal _ w => w
  | Thrown _ w => w
  end.

Definition gets {A} (f : PortugolExecutor -> A) : M A := fun w => Normal (f (this w)) w.
Definition assign (f : PortugolExecutor -> PortugolExecutor) : M unit :=
  fun w => Normal tt (on_this f w).
Definition tell (f : Host -> Host) : M unit := fun w => Normal tt (on_host f w).
Definition on_runner (r : nat) (f : Runner -> Runner) : M unit :=
  fun w => Normal tt (on_heap (alter f r) w).
Definition runner_gets {A} (r : nat) (f : Runner -> A) (d : A) : M A :=
  fun w => Normal (from_option f d (heap w !! r)) w.

Definition when (b : bool) (m : M unit) : M unit := if b then m else mret tt.

Fixpoint for_each {A} (l : list A) (f : A -> M unit) : M unit :=
  match l with
  | [] => mret tt
  | x :: l' => f x;; for_each l' f
  end.

(** [this.stdOut += s] *)
Definition append_stdOut (s : string) : M unit :=
  out ← gets stdOut; assign (set_stdOut (out ++ s)).

(** [this.stdOut$.next(this.stdOut)] *)
Definition emit_stdOut : M unit :=
  out ← gets stdOut; tell (push_stdOut_s out).

(** [s?.unsubscribe()] on a private subscription field. *)
Definition unsubscribe (s : option Subscription) : M unit :=
  match s with
  | Some s => on_runner (sub_runner s) (close s)
  | None => mret tt
  end.

(** ** The message texts of [runTranspiled] *)

(** The eleven appends of [argueAboutAlgolIfNeeded], in order. *)
Definition algol_lines : list string :=
  [ Js.LF;
    "╔═════════════════════════════════════╗" ++ Js.LF;
    "║               ATENÇÃO               ║" ++ Js.LF;
    "║                                     ║" ++ Js.LF;
    "║ Foi detectado que o seu código está ║" ++ Js.LF;
    "║ usando o Portugol no formato Algol. ║" ++ Js.LF;
    "║ O Portugol Webstudio dá suporte ao  ║" ++ Js.LF;
    "║ Portugol no formato definido pela   ║" ++ Js.LF;
    "║ UNIVALI. Por favor, leia mais sobre ║" ++ Js.LF;
    "║ na seção Ajuda.                     ║" ++ Js.LF;
    "╚═════════════════════════════════════╝" ++ Js.LF ++ Js.LF ].

Definition algol_keywords : list string :=
  ["fimalgoritmo"; "fimenquanto"; "fimpara"; "fimse"; "fimfuncao"].

(** [`⛔ O seu código possui ${n} erro${n > 1 ? "s" : ""} de compilação:\n`] *)
Definition count_line (n : nat) : string :=
  "⛔ O seu código possui " ++ Js.of_nat n ++ " erro" ++ (if Nat.ltb 1 n then "s" else "")
  ++ " de compilação:" ++ Js.LF.

(** [`   - ${error.message} (linha ${error.startLine}, posição ${error.startCol})\n`] *)
Definition error_line (error : PortugolCodeError) : string :=
  "   - " ++ message error ++ " (linha " ++ Js.of_Z (startLine error) ++ ", posição "
  ++ Js.of_Z (startCol error) ++ ")" ++ Js.LF.

Definition experimental_notice : string :=
  Js.LF ++ "⚠️ Durante essa fase experimental, o código ainda será executado mesmo com erros, porém se não corrigi-los, a execução abaixo pode exibir mensagens de erro em inglês ou sem explicação." ++ Js.LF.

Definition issue_notice : string :=
  "   Caso acredite que o erro não faça sentido, por favor, abra uma issue em https://github.com/dgadelha/Portugol-Webstudio/issues/new/choose e anexe o código que você está tentando executar." ++ Js.LF ++ Js.LF.

Definition start_marker : string :=
  "- O seu programa irá iniciar abaixo -" ++ Js.LF.

(** [`\nPrograma finalizado. Tempo de execução: ${event.time} milissegundos\n`] *)
Definition finish_line (time : Z) : string :=
  Js.LF ++ "Programa finalizado. Tempo de execução: " ++ Js.of_Z time ++ " milissegundos"
  ++ Js.LF.

(** [`\n⛔ ${event.error.message}\n`] *)
Definition runtime_error_line (msg : string) : string :=
  Js.LF ++ "⛔ " ++ msg ++ Js.LF.

Definition failure_line : string :=
  Js.LF ++ "⛔ O seu código possui um erro de compilação!" ++ Js.LF.

(** ** Methods that need no collaborator *)

(** The subscriber the constructor puts on [stdIn]: one call per value the
    host sends. *)
Definition stdIn_next (data : string) : M unit :=
  (if String.eqb data Js.BS then
     buf ← gets stdInBuffer;
     when (Nat.ltb 0 (String.length buf))
       (assign (set_stdInBuffer (Js.slice_0_m1 buf));;
        out ← gets stdOut;
        assign (set_stdOut (Js.slice_0_m1 out)))
   else if String.eqb data Js.CR then
     r ← gets _runner;
     buf ← gets stdInBuffer;
     match r with
     | Some r => on_runner r (receive_stdIn buf)
     | None => mret tt
     end;;
     assign (set_stdInBuffer "");;
     append_stdOut Js.LF
   else
     buf ← gets stdInBuffer;
     assign (set_stdInBuffer (buf ++ data));;
     append_stdOut data);;
  emit_stdOut.

(** [#printTimes]: the body is empty; the call is recorded for the host. *)
Definition printTimes (t : Times) (execution : option Z) : M unit :=
  tell (push_printTimes_calls (t, execution)).

Definition reset (clearStdOut : bool) : M unit :=
  when clearStdOut (assign (set_stdOut ""));;
  s ← gets _stdOut_s; unsubscribe s;;
  assign (set_waitingForInput false);;
  s ← gets _waitingForInput_s; unsubscribe s;;
  assign (set_running false);;
  s ← gets _running_s; unsubscribe s;;
  r ← gets _runner;
  match r with
  | Some r => on_runner r call_destroy
  | None => mret tt
  end.

Definition stop : M unit := reset true.

(** The three forwarding subscribers and the lifecycle subscriber that
    [runTranspiled] installs on a runner. *)
Definition forward_stdOut (data : string) : M unit :=
  append_stdOut data;;
  tell (push_stdOut_s data).

Definition forward_waitingForInput (data : bool) : M unit :=
  assign (set_waitingForInput data);;
  tell (push_waitingForInput_s data).

Definition forward_running (data : bool) : M unit :=
  assign (set_running data);;
  tell (push_running_s data).

Definition on_event (t : Times) (event : PortugolEvent) : M unit :=
  match event with
  | Ev_finish time =>
      append_stdOut (finish_line time);;
      printTimes t (Some time);;
      emit_stdOut
  | Ev_clear =>
      assign (set_stdOut "");;
      emit_stdOut
  | Ev_error msg =>
      append_stdOut (runtime_error_line msg);;
      emit_stdOut
  | _ => mret tt
  end;;
  tell (push_events event).

(** [subject.subscribe(f)] on a runner's stream: one more open subscription;
    the [Subscription] it returns is handed to the caller. *)
Definition subscribe_stdOut (r : nat) : M Subscription :=
  n ← runner_gets r (fun x => length (r_stdOut_s x)) 0;
  on_runner r (fun x => with_stdOut_s (r_stdOut_s x ++ [true]) x);;
  mret {| sub_runner := r; sub_stream := S_stdOut; sub_index := n |}.

Definition subscribe_waitingForInput (r : nat) : M Subscription :=
  n ← runner_gets r (fun x => length (r_waitingForInput_s x)) 0;
  on_runner r (fun x => with_waitingForInput_s (r_waitingForInput_s x ++ [true]) x);;
  mret {| sub_runner := r; sub_stream := S_waitingForInput; sub_index := n |}.

Definition subscribe_running (r : nat) : M Subscription :=
  n ← runner_gets r (fun x => length (r_running_s x)) 0;
  on_runner r (fun x => with_running_s (r_running_s x ++ [true]) x);;
  mret {| sub_runner := r; sub_stream := S_running; sub_index := n |}.

Definition subscribe_run (r : nat) (t : Times) : M Subscription :=
  n ← runner_gets r (fun x => length (r_run_s x)) 0;
  on_runner r (fun x => with_run_s (r_run_s x ++ [(true, t)]) x);;
  mret {| sub_runner := r; sub_stream := S_run; sub_index := n |}.

(** A runner pushes a value on one of its streams: every open subscription
    gets it, in subscription order. *)
Definition runner_stdOut_next (r : nat) (data : string) : M unit :=
  subs ← runner_gets r r_stdOut_s [];
  for_each (filter (fun b => b = true) subs) (fun _ => forward_stdOut data).

Definition runner_waitingForInput_next (r : nat) (data : bool) : M unit :=
  subs ← runner_gets r r_waitingForInput_s [];
  for_each (filter (fun b => b = true) subs) (fun _ => forward_waitingForInput data).

Definition runner_running_next (r : nat) (data : bool) : M unit :=
  subs ← runner_gets r r_running_s [];
  for_each (filter (fun b => b = true) subs) (fun _ => forward_running data).

Definition runner_run_next (r : nat) (event : PortugolEvent) : M unit :=
  subs ← runner_gets r r_run_s [];
  for_each (open_runs subs) (fun t => on_event t event).

(** ** The launcher *)

Section Launcher.

(** The runner class given to the constructor, seen through what
    [new this.runner(js)] does. *)
Variable runner : string -> Construction.

(** [[...].some(keyword => code.includes(keyword))] *)
Definition uses_algol (code : string) : bool :=
  existsb (fun keyword => Js.includes code keyword) algol_keywords.

Definition argueAboutAlgolIfNeeded (code : string) : M unit :=
  when (uses_algol code) (for_each algol_lines append_stdOut).

(** [new this.runner(js)] when it returns an object: the runner joins the
    heap and its position is the handle. *)
Definition allocate (js bc : string) : M nat := fun w =>
  Normal (length (heap w)) (on_heap (fun h => (h ++ [fresh_runner js bc])%list) w).

(** [this._runner = new this.runner(js)] *)
Definition construct (js : string) : M unit :=
  match runner js with
  | Built bc => r ← allocate js bc; assign (set_runner (Some r))
  | NoHandle => assign (set_runner None)
  | Fails msg => throw msg
  end.

(** The body of [if (errors.length > 0) { ... }]. *)
Definition report_errors (code : string) (errors : list PortugolCodeError) : M unit :=
  argueAboutAlgolIfNeeded code;;
  append_stdOut (count_line (length errors));;
  append_stdOut (Js.join (error_line <$> errors));;
  append_stdOut experimental_notice;;
  append_stdOut issue_notice;;
  argueAboutAlgolIfNeeded code;;
  append_stdOut start_marker;;
  emit_stdOut.

(** From [this._runner = new this.runner(js)] to the end of the [try]
    block. *)
Definition start_runner (req : Request) : M unit :=
  construct (js req);;
  h ← gets _runner;
  match h with
  | None => throw "Runner not found"
  | Some r =>
      bc ← runner_gets r r_byteCode "";
      assign (set_byteCode bc);;
      subscribe_stdOut r;;
      subscribe_waitingForInput r;;
      subscribe_running r;;
      on_runner r call_run;;
      subscribe_run r (times req);;
      mret tt
  end.

(** The [try] block of [runTranspiled]. *)
Definition launch (req : Request) : M unit :=
  reset true;;
  when (Nat.ltb 0 (length (parseErrors req))) (throw "Parse errors");;
  when (Nat.ltb 0 (length (errors req))) (report_errors (code req) (errors req));;
  start_runner req.

(** The [catch] block of [runTranspiled]. *)
Definition launch_failed (req : Request) (error : string) : M unit :=
  tell (push_console_error error);;
  append_stdOut failure_line;;
  emit_stdOut;;
  printTimes (times req) None;;
  reset false;;
  tell (push_events (Ev_parseError (parseErrors req))).

Definition runTranspiled (req : Request) : M unit :=
  try_catch (launch req) (launch_failed req).

End Launcher.

(** ** The pipeline *)

(** The locals of [run], which outlive its [try] block. *)
Record Locals := {
  l_errors : list PortugolCodeError;
  l_js : string;
  parseStart : Z;
  parseEnd : Z;
  checkStart : Z;
  checkEnd : Z;
  transpileStart : Z;
  transpileEnd : Z;
}.

Definition set_l_errors (v : list PortugolCodeError) (l : Locals) : Locals :=
  {| l_errors := v; l_js := l_js l; parseStart := parseStart l; parseEnd := parseEnd l;
     checkStart := checkStart l; checkEnd := checkEnd l; transpileStart := transpileStart l; transpileEnd := transpileEnd l |}.

Definition set_l_js (v : string) (l : Locals) : Locals :=
  {| l_errors := l_errors l; l_js := v; parseStart := parseStart l; parseEnd := parseEnd l;
     checkStart := checkStart l; checkEnd := checkEnd l; transpileStart := transpileStart l; transpileEnd := transpileEnd l |}.

Definition set_parseStart (v : Z) (l : Locals) : Locals :=
  {| l_errors := l_errors l; l_js := l_js l; parseStart := v; parseEnd := parseEnd l;
     checkStart := checkStart l; checkEnd := checkEnd l; transpileStart := transpileStart l; transpileEnd := transpileEnd l |}.

Definition set_parseEnd (v : Z) (l : Locals) : Locals :=
  {| l_errors := l_errors l; l_js := l_js l; parseStart := parseStart l; parseEnd := v;
     checkStart := checkStart l; checkEnd := checkEnd l; transpileStart := transpileStart l; transpileEnd := transpileEnd l |}.

Definition set_checkStart (v : Z) (l : Locals) : Locals :=
  {| l_errors := l_errors l; l_js := l_js l; parseStart := parseStart l; parseEnd := parseEnd l;
     checkStart := v; checkEnd := checkEnd l; transpileStart := transpileStart l; transpileEnd := transpileEnd l |}.

Definition set_checkEnd (v : Z) (l : Locals) : Locals :=
  {| l_errors := l_errors l; l_js := l_js l; parseStart := parseStart l; parseEnd := parseEnd l;
     checkStart := checkStart l; checkEnd := v; transpileStart := transpileStart l; transpileEnd := transpileEnd l |}.

Definition set_transpileStart (v : Z) (l : Locals) : Locals :=
  {| l_errors := l_errors l; l_js := l_js l; parseStart := parseStart l; parseEnd := parseEnd l;
     checkStart := checkStart l; checkEnd := checkEnd l; transpileStart := v; transpileEnd := transpileEnd l |}.

Definition set_transpileEnd (v : Z) (l : Locals) : Locals :=
  {| l_errors := l_errors l; l_js := l_js l; parseStart := parseStart l; parseEnd := parseEnd l;
     checkStart := checkStart l; checkEnd := checkEnd l; transpileStart := transpileStart l; transpileEnd := v |}.

Definition locals0 : Locals :=
  {| l_errors := []; l_js := ""; parseStart := 0; parseEnd := 0;
     checkStart := 0; checkEnd := 0; transpileStart := 0; transpileEnd := 0 |}.

Section Pipeline.

(** The collaborators of [run].  [Tree] is the parse tree.  [arquivo]
    stands for lexing and parsing a text with [this.errorListener]
    attached: the syntax diagnostics the listener is told, and the tree, or
    [None] when parsing throws.  [checkTree] and [visit] are the checker
    and the code generator, [None] when they throw.  [now n] is the [n]-th
    reading of [performance.now()]. *)
Context {Tree : Type}.
Variable arquivo : string -> list PortugolCodeError * option Tree.
Variable checkTree : Tree -> option (list PortugolCodeError).
Variable visit : Tree -> option string.
Variable runner : string -> Construction.
Variable now : nat -> Z.

(** [performance.now()] *)
Definition performance_now (w : World) : Z * World := (now (ticks w), tick w).

(** The [try] block of [run], up to the point where it ends or throws:
    the locals as they stand there. *)
Definition pipeline (code : string) (w : World) : Locals * World :=
  let l := locals0 in
  let '(t, w) := performance_now w in
  let l := set_parseStart t l in
  let w := on_this (set_errorListener []) w in
  let w := on_this (set_errorListener (fst (arquivo code))) w in
  match snd (arquivo code) with
  | None => (l, w)
  | Some tree =>
      let '(t, w) := performance_now w in
      let l := set_parseEnd t l in
      let '(t, w) := performance_now w in
      let l := set_checkStart t l in
      match checkTree tree with
      | None => (l, w)
      | Some errs =>
          let l := set_l_errors errs l in
          let '(t, w) := performance_now w in
          let l := set_checkEnd t l in
          let '(t, w) := performance_now w in
          let l := set_transpileStart t l in
          match visit tree with
          | None => (l, w)
          | Some out =>
              let l := set_l_js out l in
              let '(t, w) := performance_now w in
              let l := set_transpileEnd t l in
              (l, w)
          end
      end
  end.

(** The object literal handed to [runTranspiled]. *)
Definition request (code : string) (l : Locals) (w : World) : Request :=
  {| code := code;
     js := l_js l;
     errors := l_errors l;
     parseErrors := errorListener (this w);
     times := {| parse := parseEnd l - parseStart l;
                 check := checkEnd l - checkStart l;
                 transpile := transpileEnd l - transpileStart l |} |}.

Definition run (code : string) : M unit := fun w =>
  let '(l, w') := pipeline code w in
  runTranspiled runner (request code l w') w'.

(** The bundle [run] builds for [code] in world [w], and the world in which
    it hands the bundle over. *)
Definition bundle (code : string) (w : World) : Request :=
  request code (fst (pipeline code w)) (snd (pipeline code w)).

Definition handover (code : string) (w : World) : World := snd (pipeline code w).

(** ** Everything that can happen to an executor *)

Inductive Action :=
| Do_stdIn (data : string)
| Do_run (code : string)
| Do_runTranspiled (req : Request)
| Do_stop
| Runner_stdOut (r : nat) (data : string)
| Runner_waitingForInput (r : nat) (data : bool)
| Runner_running (r : nat) (data : bool)
| Runner_event (r : nat) (event : PortugolEvent).

Definition perform (a : Action) : M unit :=
  match a with
  | Do_stdIn data => stdIn_next data
  | Do_run code => run code
  | Do_runTranspiled req => runTranspiled runner req
  | Do_stop => stop
  | Runner_stdOut r data => runner_stdOut_next r data
  | Runner_waitingForInput r data => runner_waitingForInput_next r data
  | Runner_running r data => runner_running_next r data
  | Runner_event r event => runner_run_next r event
  end.

Definition perform_all (l : list Action) : M unit := for_each l perform.

End Pipeline.

(** A freshly constructed executor: the field initialisers of the class. *)
Definition new_executor : World :=
  {| this := {| _runner := None; byteCode := ""; stdInBuffer := ""; stdOut := "";
                _stdOut_s := None; waitingForInput := false;
                _waitingForInput_s := None; running := false; _running_s := None;
                errorListener := [] |};
     host := {| stdOut_s := []; waitingForInput_s := []; running_s := []; events := [];
                printTimes_calls := []; console_error := [] |};
     heap := [];
     ticks := 0 |}.

(** ** Sample collaborators

    A parser that reports one syntax diagnostic on the text ["programa com
    erro de sintaxe"] and throws on ["{"], a checker that throws on the tree
    of ["x = "], a generator that throws on the tree of ["?"], a runner
    class that always constructs, and a clock that reads 10, 11, 12, ... *)
Module Demo.

Definition diagnostic : PortugolCodeError :=
  {| message := "Tipos incompatíveis"; startLine := 3; startCol := 7 |}.

Definition arquivo (code : string) : list PortugolCodeError * option string :=
  if String.eqb code "programa com erro de sintaxe" then ([diagnostic], Some code)
  else if String.eqb code "{" then ([diagnostic], None)
  else ([], Some code).

Definition checkTree (tree : string) : option (list PortugolCodeError) :=
  if String.eqb tree "x = " then None else Some [].

Definition visit (tree : string) : option string :=
  if String.eqb tree "?" then None else Some ("js(" ++ tree ++ ")").

Definition runner (js : string) : Construction := Built ("bytecode(" ++ js ++ ")").

Definition now (n : nat) : Z := Z.of_nat (10 + n).

Definition play (l : list (@Action)) : World :=
  world_of (perform_all arquivo checkTree visit runner now l new_executor).

Definition request (code : string) (errs perrs : list PortugolCodeError) : Request :=
  {| code := code; js := "js"; errors := errs; parseErrors := perrs;
     times := {| parse := 1; check := 2; transpile := 3 |} |}.

End Demo.

(** The state of C10 is reachable: launch a program, type a character, and
    let the runner send a [clear] event. *)
Definition cleared_world : World :=
  Demo.play [Do_run "programa"; Do_stdIn "5"; Runner_event 0 Ev_clear].

(** ** Closed forms

    The worlds and texts the theorems below are stated with. *)

(** The three private subscription fields of the object. *)
Definition handles (w : World) : list (option Subscription) :=
  [_stdOut_s (this w); _waitingForInput_s (this w); _running_s (this w)].

(** The worlds a fresh executor can get into. *)
Definition reachable (w : World) : Prop :=
  ∃ (Tree : Type) (arquivo : string → list PortugolCodeError * option Tree)
    (checkTree : Tree → option (list PortugolCodeError)) (visit : Tree → option string)
    (runner : string → Construction) (now : nat → Z) (l : list Action),
    w = world_of (perform_all arquivo checkTree visit runner now l new_executor).

(** Whether the parser, the checker or the generator throws on [code]. *)
Definition some_phase_throws {Tree} (arquivo : string → list PortugolCodeError * option Tree)
    (checkTree : Tree → option (list PortugolCodeError)) (visit : Tree → option string)
    (code : string) : bool :=
  match snd (arquivo code) with
  | None => true
  | Some tree =>
      match checkTree tree with
      | None => true
      | Some _ =>
          match visit tree with
          | None => true
          | Some _ => false
          end
      end
  end.

(** The world [reset] leaves. *)
Definition after_reset (c : bool) (w : World) : World := world_of (reset c w).

(** The subscriptions [reset] closes are the ones held in the three private
    fields; the runner in [_runner] is destroyed. *)
Definition close_held (s : option Subscription) (h : list Runner) : list Runner :=
  from_option (fun s => alter (close s) (sub_runner s) h) h s.

Definition destroy_held (r : option nat) (h : list Runner) : list Runner :=
  from_option (fun r => alter call_destroy r h) h r.

(** The boxed banner as one text. *)
Definition algol_banner : string := Js.join algol_lines.

Definition banner_if_algol (code : string) : string :=
  if uses_algol code then algol_banner else "".

(** Everything the launcher appends for a non-empty list of semantic
    diagnostics. *)
Definition diagnostics_text (code : string) (errs : list PortugolCodeError) : string :=
  banner_if_algol code ++ count_line (length errs) ++ Js.join (error_line <$> errs)
  ++ experimental_notice ++ issue_notice ++ banner_if_algol code ++ start_marker.

(** A runner right after a launch: four open subscriptions, [run()] called
    once. *)
Definition wired (t : Times) (js bc : string) : Runner :=
  {| r_js := js; r_byteCode := bc; r_stdIn := [];
     r_stdOut_s := [true]; r_waitingForInput_s := [true]; r_running_s := [true];
     r_run_s := [(true, t)]; r_run_calls := 1; r_destroy_calls := 0 |}.

(** The worlds after the diagnostics block, after a successful start, and
    after the [catch] block. *)
Definition reported (code : string) (errs : list PortugolCodeError) (w : World) : World :=
  on_host (push_stdOut_s (stdOut (this w) ++ diagnostics_text code errs))
    (on_this (set_stdOut (stdOut (this w) ++ diagnostics_text code errs)) w).

Definition started (req : Request) (bc : string) (w : World) : World :=
  on_heap (fun h => (h ++ [wired (times req) (js req) bc])%list)
    (on_this (fun e => set_byteCode bc (set_runner (Some (length (heap w))) e)) w).

Definition failed (req : Request) (error : string) (w : World) : World :=
  on_host (push_events (Ev_parseError (parseErrors req)))
    (after_reset false
       (on_host (push_printTimes_calls (times req, None))
          (on_host (push_stdOut_s (stdOut (this w) ++ failure_line))
             (on_this (set_stdOut (stdOut (this w) ++ failure_line))
                (on_host (push_console_error error) w))))).

Definition warned (req : Request) (w : World) : World :=
  if Nat.ltb 0 (length (errors req)) then reported (code req) (errors req) w else w.

(** A value sent on [stdIn] that is neither the backspace nor the carriage
    return. *)
Definition ordinary (data : string) : bool :=
  negb (String.eqb data Js.BS) && negb (String.eqb data Js.CR).

(** The host sends the values of [ds] on [stdIn], one after the other. *)
Definition type_all (ds : list string) : M unit := for_each ds stdIn_next.

(** The transcript ends with the keystrokes not yet committed. *)
Definition echo_pending (w : World) : Prop :=
  ∃ shown, stdOut (this w) = shown ++ stdInBuffer (this w).

(** A runner as the launcher leaves it and nothing ever changes it: one open
    subscription on each of its four streams, [run()] called once. *)
Definition well_wired (x : Runner) : Prop :=
  r_stdOut_s x = [true] ∧ r_waitingForInput_s x = [true] ∧ r_running_s x = [true] ∧
  fst <$> r_run_s x = [true] ∧ r_run_calls x = 1.

(** The runner in [_runner], if any, is the one constructed last, and
    [byteCode] is its serialized form. *)
Definition current_is_last (w : World) : Prop :=
  match _runner (this w) with
  | Some r => S r = length (heap w) ∧ r_byteCode <$> heap w !! r = Some (byteCode (this w))
  | None => True
  end.

(** The part of a world that [consistent] speaks of. *)
Definition core (w : World) :
    list (option Subscription) * list Runner * option nat * string :=
  (handles w, heap w, _runner (this w), byteCode (this w)).

(** The four subscription lists of a runner. *)
Definition subscriptions (x : Runner) :
    list bool * list bool * list bool * list (bool * Times) :=
  (r_stdOut_s x, r_waitingForInput_s x, r_running_s x, r_run_s x).

(** Nothing is held in the private fields and runner [r] has the
    subscriptions [s]. *)
Definition kept (r : nat) (s : list bool * list bool * list bool * list (bool * Times))
    (w : World) : Prop :=
  handles w = [None; None; None] ∧ subscriptions <$> heap w !! r = Some s.

(** What holds of every world a fresh executor can get into. *)
Definition consistent (w : World) : Prop :=
  handles w = [None; None; None] ∧ Forall well_wired (heap w) ∧ current_is_last w.





(** ** Basic facts *)

(** Case analysis on the fields a method branches on. *)
Ltac split_world w :=
  let r := fresh "r" in
  let s1 := fresh "s" in
  let s2 := fresh "s" in
  let s3 := fresh "s" in
  destruct w as [[r ? ? ? s1 ? s2 ? s3 ?] [? ? ? ? ? ?] ? ?];
  destruct r, s1, s2, s3.

Lemma append_assoc (a b c : string) : (a ++ b) ++ c = a ++ (b ++ c).
Proof. induction a as [|x a IH]; [reflexivity | exact (f_equal (String x) IH)]. Qed.

Lemma append_nil_r (a : string) : a ++ "" = a.
Proof. induction a as [|x a IH]; [reflexivity | exact (f_equal (String x) IH)]. Qed.

Lemma join_cons (x : string) (l : list string) : Js.join (x :: l) = x ++ Js.join l.
Proof. destruct l; simpl; [by rewrite append_nil_r | reflexivity]. Qed.

Lemma substring_init (s : string) (a : Ascii.ascii) :
  ∃ c, String a s = String.substring 0 (String.length s) (String a s) ++ String c "".
Proof.
  revert a; induction s as [|b s IH]; intros a; [by exists a |].
  destruct (IH b) as [c Hc]. exists c.
  change (String a (String b s) =
          String a (String.substring 0 (String.length s) (String b s) ++ String c "")).
  by rewrite <- Hc.
Qed.

(** [slice(0, -1)] removes exactly the last character of a non-empty string. *)
Lemma slice_0_m1_last (s : string) :
  s ≠ "" → ∃ c, s = Js.slice_0_m1 s ++ String c "".
Proof.
  destruct s as [|a s]; [done | intros _].
  unfold Js.slice_0_m1. cbn [String.length Nat.sub]. rewrite Nat.sub_0_r.
  apply substring_init.
Qed.

Lemma length_append (a b : string) :
  String.length (a ++ b) = String.length a + String.length b.
Proof. induction a as [|x a IH]; [reflexivity | exact (f_equal S IH)]. Qed.

Lemma prefix_spec (p s : string) : String.prefix p s = true ↔ ∃ b, s = p ++ b.
Proof.
  revert s. induction p as [|a p IH]; intros s.
  - split; [intros _; by exists s | intros _; by destruct s].
  - destruct s as [|a' s]; cbn [String.prefix].
    + split; [discriminate | by intros [b Hb]].
    + destruct (Ascii.ascii_dec a a') as [-> | Hne].
      * rewrite IH. split; intros [b Hb]; exists b; [by rewrite Hb | by injection Hb].
      * split; [discriminate | intros [b Hb]; injection Hb; congruence].
Qed.

Lemma includes_spec (s pat : string) :
  Js.includes s pat = true ↔ ∃ a b, s = a ++ pat ++ b.
Proof.
  induction s as [|c s IH]; cbn [Js.includes].
  - rewrite orb_false_r, prefix_spec. split.
    + intros [b Hb]. by exists "", b.
    + intros (a & b & H). destruct a; [by exists b | discriminate].
  - rewrite orb_true_iff, prefix_spec, IH. split.
    + intros [[b Hb] | (a & b & H)]; [by exists "", b |].
      exists (String c a), b. by rewrite H.
    + intros (a & b & H). destruct a as [|c' a]; [left; by exists b |].
      right. exists a, b. by injection H.
Qed.

Lemma bind_eq {A B} (m : M A) (f : A → M B) (w : World) :
  (m ≫= f) w =
  match m w with
  | Normal a w' => f a w'
  | Thrown e w' => Thrown e w'
  end.
Proof. reflexivity. Qed.

(** [reset] always returns. *)
Lemma reset_returns (c : bool) (w : World) : reset c w = Normal tt (after_reset c w).
Proof. split_world w; by destruct c. Qed.

(** What [reset] does to the object and to the host. *)
Lemma reset_this (c : bool) (w : World) :
  this (after_reset c w) =
  set_running false (set_waitingForInput false
    (if c then set_stdOut "" (this w) else this w)).
Proof. split_world w; by destruct c. Qed.

Lemma reset_host (c : bool) (w : World) : host (after_reset c w) = host w.
Proof. split_world w; by destruct c. Qed.

Lemma reset_heap (c : bool) (w : World) :
  heap (after_reset c w) =
  destroy_held (_runner (this w))
    (close_held (_running_s (this w))
       (close_held (_waitingForInput_s (this w))
          (close_held (_stdOut_s (this w)) (heap w)))).
Proof. split_world w; by destruct c. Qed.

Lemma close_held_length (s : option Subscription) (h : list Runner) :
  length (close_held s h) = length h.
Proof. destruct s; [apply length_alter | reflexivity]. Qed.

Lemma destroy_held_length (r : option nat) (h : list Runner) :
  length (destroy_held r h) = length h.
Proof. destruct r; [apply length_alter | reflexivity]. Qed.

Lemma reset_heap_length (c : bool) (w : World) :
  length (heap (after_reset c w)) = length (heap w).
Proof. by rewrite reset_heap, destroy_held_length, !close_held_length. Qed.

Lemma on_this_eta (w : World) : on_this (set_stdOut (stdOut (this w))) w = w.
Proof. by destruct w as [[] ? ? ?]. Qed.

Lemma append_stdOut_eq (s : string) (w : World) :
  append_stdOut s w = Normal tt (on_this (set_stdOut (stdOut (this w) ++ s)) w).
Proof. reflexivity. Qed.

Lemma for_each_append (l : list string) (w : World) :
  for_each l append_stdOut w =
  Normal tt (on_this (set_stdOut (stdOut (this w) ++ Js.join l)) w).
Proof.
  revert w; induction l as [|x l IH]; intros w.
  - simpl. by rewrite append_nil_r, on_this_eta.
  - cbn [for_each]. rewrite bind_eq, append_stdOut_eq, IH, join_cons.
    cbn [on_this this stdOut set_stdOut]. by rewrite append_assoc.
Qed.

Lemma argueAboutAlgolIfNeeded_eq (code : string) (w : World) :
  argueAboutAlgolIfNeeded code w =
  Normal tt (on_this (set_stdOut (stdOut (this w) ++ banner_if_algol code)) w).
Proof.
  unfold argueAboutAlgolIfNeeded, banner_if_algol, when.
  destruct (uses_algol code); [apply for_each_append |].
  by rewrite append_nil_r, on_this_eta.
Qed.

Lemma report_errors_eq (code : string) (errs : list PortugolCodeError) (w : World) :
  report_errors code errs w =
  Normal tt
    (on_host (push_stdOut_s (stdOut (this w) ++ diagnostics_text code errs))
       (on_this (set_stdOut (stdOut (this w) ++ diagnostics_text code errs)) w)).
Proof.
  unfold report_errors, emit_stdOut, diagnostics_text.
  repeat (rewrite bind_eq; first [rewrite argueAboutAlgolIfNeeded_eq | rewrite append_stdOut_eq]).
  cbn [gets tell mbind M_bind on_this on_host this host stdOut set_stdOut].
  by rewrite !append_assoc.
Qed.

Lemma alter_last {A} (f : A → A) (h : list A) (x : A) :
  alter f (length h) (h ++ [x])%list = (h ++ [f x])%list.
Proof. rewrite alter_app_r_alt by lia. by rewrite Nat.sub_diag. Qed.

Lemma lookup_last {A} (h : list A) (x : A) : (h ++ [x])%list !! length h = Some x.
Proof. by apply list_lookup_middle. Qed.

Lemma start_runner_built runner (req : Request) (bc : string) (w : World) :
  runner (js req) = Built bc →
  start_runner runner req w =
  Normal tt
    (on_heap (fun h => (h ++ [wired (times req) (js req) bc])%list)
       (on_this (fun e => set_byteCode bc (set_runner (Some (length (heap w))) e)) w)).
Proof.
  intros H. unfold start_runner, construct. rewrite H.
  cbv beta iota delta [allocate subscribe_stdOut subscribe_waitingForInput subscribe_running
    subscribe_run runner_gets on_runner assign gets mbind M_bind mret M_ret
    on_heap on_this heap this _runner set_runner].
  rewrite lookup_last, !alter_last. reflexivity.
Qed.

Lemma start_runner_nohandle runner (req : Request) (w : World) :
  runner (js req) = NoHandle →
  start_runner runner req w = Thrown "Runner not found" (on_this (set_runner None) w).
Proof. intros H. unfold start_runner, construct. by rewrite H. Qed.

Lemma start_runner_fails runner (req : Request) (msg : string) (w : World) :
  runner (js req) = Fails msg → start_runner runner req w = Thrown msg w.
Proof. intros H. unfold start_runner, construct. by rewrite H. Qed.

Lemma launch_failed_eq (req : Request) (error : string) (w : World) :
  launch_failed req error w = Normal tt (failed req error w).
Proof.
  unfold launch_failed, failed, printTimes, emit_stdOut.
  unfold mbind, M_bind, tell, gets. by rewrite append_stdOut_eq, reset_returns.
Qed.

Lemma runTranspiled_eq runner (req : Request) (w : World) :
  runTranspiled runner req w =
  Normal tt
    (let w1 := after_reset true w in
     if Nat.ltb 0 (length (parseErrors req)) then failed req "Parse errors" w1
     else
       match runner (js req) with
       | Built bc => started req bc (warned req w1)
       | NoHandle => failed req "Runner not found" (on_this (set_runner None) (warned req w1))
       | Fails msg => failed req msg (warned req w1)
       end).
Proof.
  unfold runTranspiled, try_catch, launch, warned, when, throw, mbind, M_bind, mret, M_ret.
  rewrite reset_returns.
  destruct (Nat.ltb 0 (length (parseErrors req))); [apply launch_failed_eq |].
  destruct (Nat.ltb 0 (length (errors req))).
  - rewrite report_errors_eq.
    fold (reported (code req) (errors req) (after_reset true w)).
    destruct (runner (js req)) eqn:E.
    + by rewrite (start_runner_built _ _ _ _ E).
    + rewrite (start_runner_nohandle _ _ _ E). apply launch_failed_eq.
    + rewrite (start_runner_fails _ _ _ _ E). apply launch_failed_eq.
  - destruct (runner (js req)) eqn:E.
    + by rewrite (start_runner_built _ _ _ _ E).
    + rewrite (start_runner_nohandle _ _ _ E). apply launch_failed_eq.
    + rewrite (start_runner_fails _ _ _ _ E). apply launch_failed_eq.
Qed.

Lemma after_reset_stdOut (w : World) : stdOut (this (after_reset true w)) = "".
Proof. by rewrite reset_this. Qed.

Lemma failed_this (req : Request) (error : string) (w : World) :
  this (failed req error w) =
  set_running false (set_waitingForInput false
    (set_stdOut (stdOut (this w) ++ failure_line) (this w))).
Proof. unfold failed. cbn [this on_host]. by rewrite reset_this. Qed.

Lemma failed_host (req : Request) (error : string) (w : World) :
  host (failed req error w) =
  push_events (Ev_parseError (parseErrors req))
    (push_printTimes_calls (times req, None)
       (push_stdOut_s (stdOut (this w) ++ failure_line)
          (push_console_error error (host w)))).
Proof. unfold failed. cbn [host on_host]. by rewrite reset_host. Qed.

Lemma failed_heap_length (req : Request) (error : string) (w : World) :
  length (heap (failed req error w)) = length (heap w).
Proof. unfold failed. cbn [heap on_host]. by rewrite reset_heap_length. Qed.

(** ** Lifecycle and reset *)

(** C3, as the code has it: every call to [reset], hence every [stop()],
    with or without an active runner and for either value of [clearStdOut],
    returns without throwing and leaves [waitingForInput] and [running]
    false.  It emits nothing: the host's view of every public subject is
    what it was. *)
Theorem C3_reset_clears_flags_silently (c : bool) (w : World) :
  ∃ w', reset c w = Normal tt w' ∧
        waitingForInput (this w') = false ∧
        running (this w') = false ∧
        host w' = host w.
Proof.
  exists (after_reset c w). split; [apply reset_returns |].
  rewrite reset_this, reset_host. by destruct c.
Qed.

(** C3, as the claim states it, fails on a fresh executor: [stop()] leaves
    both flags false but neither [waitingForInput$] nor [running$] has
    received a value. *)
Lemma C3_stop_emits_no_flag :
  let w' := world_of (stop new_executor) in
  waitingForInput (this w') = false ∧ running (this w') = false ∧
  waitingForInput_s (host w') = [] ∧ running_s (host w') = [] ∧
  waitingForInput_s (host w') ≠ (waitingForInput_s (host new_executor) ++ [false])%list ∧
  running_s (host w') ≠ (running_s (host new_executor) ++ [false])%list.
Proof. repeat split; discriminate. Qed.

(** ** The terminal input buffer *)

(** The keystroke subscriber always returns, and the value it emits is the
    transcript it leaves. *)
Lemma stdIn_next_returns (data : string) (w : World) :
  ∃ w', stdIn_next data w = Normal tt w' ∧
        host w' = push_stdOut_s (stdOut (this w')) (host w).
Proof.
  unfold stdIn_next.
  destruct (String.eqb data Js.BS); [| destruct (String.eqb data Js.CR)].
  - destruct (Nat.ltb 0 (String.length (stdInBuffer (this w)))) eqn:E;
      rewrite bind_eq, bind_eq; cbn [gets]; rewrite E; by eexists.
  - destruct (_runner (this w)) eqn:E;
      rewrite bind_eq, bind_eq; cbn [gets]; rewrite E; by eexists.
  - by eexists.
Qed.

(** C10: the keystroke subscriber returns on every value in every world.
    A backspace that arrives while [stdInBuffer] is non-empty and [stdOut]
    is already empty throws nothing; [stdInBuffer] loses its last character,
    [stdOut] stays empty, and the empty transcript is emitted. *)
Theorem C10_backspace_on_empty_transcript (w : World) :
  stdInBuffer (this w) ≠ "" →
  stdOut (this w) = "" →
  (∀ data w0, ∃ w1, stdIn_next data w0 = Normal tt w1) ∧
  ∃ w', stdIn_next Js.BS w = Normal tt w' ∧
        stdInBuffer (this w') = Js.slice_0_m1 (stdInBuffer (this w)) ∧
        (∃ c, stdInBuffer (this w) = stdInBuffer (this w') ++ String c "") ∧
        stdOut (this w') = "" ∧
        stdOut_s (host w') = (stdOut_s (host w) ++ [""])%list.
Proof.
  intros Hbuf Hout. split.
  { intros data w0. destruct (stdIn_next_returns data w0) as (w1 & H & _). eauto. }
  destruct (slice_0_m1_last _ Hbuf) as [c Hc].
  destruct w as [[r bc buf out s1 wf s2 rn s3 el] hp h tk]; cbn in Hbuf, Hout, Hc.
  subst out. destruct buf as [|a buf]; [done |].
  eexists. split; [reflexivity |]. cbn. eauto.
Qed.

Lemma C10_backspace_after_clear :
  (∀ data w0, ∃ w1, stdIn_next data w0 = Normal tt w1) ∧
  ∃ w', stdIn_next Js.BS cleared_world = Normal tt w' ∧
        stdInBuffer (this w') = Js.slice_0_m1 (stdInBuffer (this cleared_world)) ∧
        (∃ c, stdInBuffer (this cleared_world) = stdInBuffer (this w') ++ String c "") ∧
        stdOut (this w') = "" ∧
        stdOut_s (host w') = (stdOut_s (host cleared_world) ++ [""])%list.
Proof.
  apply (C10_backspace_on_empty_transcript cleared_world).
  - vm_compute. discriminate.
  - vm_compute. reflexivity.
Defined.

(** ** The failure path *)

(** C4: when the syntax-diagnostics list of the bundle is non-empty,
    [runTranspiled] returns after taking the failure path.  No runner is
    constructed (the heap keeps its size and [_runner] its value); the
    transcript, emptied by the first reset, receives the failure line and is
    emitted; [#printTimes] is called with the bundle's timings and no
    execution time; the final [reset(false)] keeps the transcript and clears
    both flags; exactly one [parseError] event, carrying the bundle's
    syntax diagnostics, is emitted. *)
Theorem C4_syntax_diagnostics_are_fatal runner (req : Request) (w : World) :
  parseErrors req ≠ [] →
  ∃ w', runTranspiled runner req w = Normal tt w' ∧
        w' = failed req "Parse errors" (after_reset true w) ∧
        length (heap w') = length (heap w) ∧
        _runner (this w') = _runner (this w) ∧
        stdOut (this w') = failure_line ∧
        stdOut_s (host w') = (stdOut_s (host w) ++ [failure_line])%list ∧
        printTimes_calls (host w') = (printTimes_calls (host w) ++ [(times req, None)])%list ∧
        events (host w') = (events (host w) ++ [Ev_parseError (parseErrors req)])%list ∧
        waitingForInput (this w') = false ∧
        running (this w') = false.
Proof.
  intros H. destruct (parseErrors req) as [|p ps] eqn:E; [done |].
  eexists. split; [apply runTranspiled_eq |].
  rewrite E. cbn [length Nat.ltb Nat.leb]. cbv zeta.
  split; [reflexivity |].
  rewrite failed_this, failed_host, failed_heap_length, reset_heap_length, reset_host.
  rewrite reset_this. rewrite E. repeat split.
Qed.


(** The scenario of a program with one syntax diagnostic, through [run]. *)
Lemma C4_syntax_error_scenario :
  let text := "programa com erro de sintaxe" in
  let req := bundle Demo.arquivo Demo.checkTree Demo.visit Demo.now text new_executor in
  parseErrors req ≠ [] ∧
  ∃ w', run Demo.arquivo Demo.checkTree Demo.visit Demo.runner Demo.now text new_executor
        = Normal tt w' ∧
        heap w' = [] ∧
        stdOut (this w') = failure_line ∧
        printTimes_calls (host w') = [(times req, None)] ∧
        events (host w') = [Ev_parseError [Demo.diagnostic]].
Proof.
  intros text req. split; [discriminate |].
  destruct (C4_syntax_diagnostics_are_fatal Demo.runner req
              (handover Demo.arquivo Demo.checkTree Demo.visit Demo.now text new_executor))
    as (w' & Hrun & _ & Hheap & _ & Hout & _ & Hhook & Hev & _); [discriminate |].
  exists w'. repeat split; try assumption.
  by destruct (heap w').
Defined.

(** ** The transcript of a launch *)

Lemma after_reset_forgets_stdOut (old : string) (w : World) :
  after_reset true (on_this (set_stdOut old) w) = after_reset true w.
Proof. by split_world w. Qed.

Lemma warned_stdOut (req : Request) (w : World) :
  stdOut (this (warned req w)) =
  stdOut (this w) ++
  (if Nat.ltb 0 (length (errors req)) then diagnostics_text (code req) (errors req) else "").
Proof.
  unfold warned. destruct (Nat.ltb 0 (length (errors req))); [reflexivity |].
  by rewrite append_nil_r.
Qed.

(** The transcript [runTranspiled] leaves, whatever it found. *)
Lemma runTranspiled_stdOut runner (req : Request) (w : World) :
  stdOut (this (world_of (runTranspiled runner req w))) =
    (if Nat.ltb 0 (length (parseErrors req)) then failure_line
     else (if Nat.ltb 0 (length (errors req))
           then diagnostics_text (code req) (errors req) else "")
          ++ match runner (js req) with
             | Built _ => ""
             | _ => failure_line
             end).
Proof.
  rewrite runTranspiled_eq. cbn [world_of]. cbv zeta.
  destruct (Nat.ltb 0 (length (parseErrors req))).
  - by rewrite failed_this, after_reset_stdOut.
  - destruct (runner (js req)).
    + cbn [started this on_heap on_this stdOut set_byteCode set_runner].
      by rewrite warned_stdOut, after_reset_stdOut, append_nil_r.
    + rewrite failed_this. cbn [stdOut set_running set_waitingForInput set_stdOut
        on_this this set_runner].
      by rewrite warned_stdOut, after_reset_stdOut.
    + rewrite failed_this. cbn [stdOut set_running set_waitingForInput set_stdOut].
      by rewrite warned_stdOut, after_reset_stdOut.
Qed.

(** C8: the reset that opens [runTranspiled] empties the transcript, so the
    outcome of a launch does not depend on the transcript it found, and the
    transcript it leaves is the failure line alone on the fatal-syntax path,
    and otherwise the diagnostics text (if any) followed by the failure line
    (if the runner could not be constructed). *)
Theorem C8_launch_discards_previous_transcript runner (req : Request) (w : World) :
  stdOut (this (world_of (reset true w))) = "" ∧
  (∀ old, runTranspiled runner req (on_this (set_stdOut old) w) =
          runTranspiled runner req w) ∧
  stdOut (this (world_of (runTranspiled runner req w))) =
    (if Nat.ltb 0 (length (parseErrors req)) then failure_line
     else (if Nat.ltb 0 (length (errors req))
           then diagnostics_text (code req) (errors req) else "")
          ++ match runner (js req) with
             | Built _ => ""
             | _ => failure_line
             end).
Proof.
  change (world_of (reset true w)) with (after_reset true w).
  split; [apply after_reset_stdOut |]. split.
  - intros old. by rewrite !runTranspiled_eq, after_reset_forgets_stdOut.
  - apply runTranspiled_stdOut.
Qed.

(** ** What [reset] leaves alone *)

Lemma warned_byteCode (req : Request) (w : World) :
  byteCode (this (warned req w)) = byteCode (this w).
Proof. unfold warned. by destruct (Nat.ltb 0 (length (errors req))). Qed.

(** [byteCode] after a launch: the serialized form of the runner if one was
    constructed, and what it was before otherwise. *)
Lemma runTranspiled_byteCode runner (req : Request) (w : World) :
  byteCode (this (world_of (runTranspiled runner req w))) =
  if Nat.ltb 0 (length (parseErrors req)) then byteCode (this w)
  else match runner (js req) with
       | Built bc => bc
       | _ => byteCode (this w)
       end.
Proof.
  rewrite runTranspiled_eq. cbn [world_of]. cbv zeta.
  destruct (Nat.ltb 0 (length (parseErrors req))).
  - by rewrite failed_this, reset_this.
  - destruct (runner (js req)).
    + reflexivity.
    + rewrite failed_this.
      cbn [byteCode set_running set_waitingForInput set_stdOut on_this this set_runner].
      by rewrite warned_byteCode, reset_this.
    + rewrite failed_this. cbn [byteCode set_running set_waitingForInput set_stdOut].
      by rewrite warned_byteCode, reset_this.
Qed.

(** C9: [reset], for either value of [clearStdOut], and so [stop()], leaves
    [byteCode] and [stdInBuffer] as they were.  Hence after a launch and a
    stop [byteCode] is still the serialized form of the runner that launch
    constructed (or what it was before, if the launch constructed none), and
    the carriage return that follows a reset commits the keystrokes that
    were buffered before it, to the runner still in [_runner]. *)
Theorem C9_reset_keeps_byteCode_and_stdInBuffer (c : bool) (w : World) :
  byteCode (this (world_of (reset c w))) = byteCode (this w) ∧
  stdInBuffer (this (world_of (reset c w))) = stdInBuffer (this w) ∧
  byteCode (this (world_of (stop w))) = byteCode (this w) ∧
  stdInBuffer (this (world_of (stop w))) = stdInBuffer (this w) ∧
  (∀ runner req,
     byteCode (this (world_of (stop (world_of (runTranspiled runner req w))))) =
     if Nat.ltb 0 (length (parseErrors req)) then byteCode (this w)
     else match runner (js req) with
          | Built bc => bc
          | _ => byteCode (this w)
          end) ∧
  heap (world_of (stdIn_next Js.CR (world_of (reset c w)))) =
    from_option (fun r => alter (receive_stdIn (stdInBuffer (this w))) r) id
      (_runner (this w)) (heap (world_of (reset c w))).
Proof.
  unfold stop. change (world_of (reset ?b ?x)) with (after_reset b x).
  rewrite !reset_this.
  split; [by destruct c |]. split; [by destruct c |].
  split; [reflexivity |]. split; [reflexivity |]. split.
  - intros runner req. rewrite reset_this.
    cbn [byteCode set_running set_waitingForInput set_stdOut].
    apply runTranspiled_byteCode.
  - split_world w; by destruct c.
Qed.

(** ** Semantic diagnostics *)




(** ** Counting the banner *)























(** ** What the public output stream carries *)

(** C2, as the code has it.  At every place but one where the executor
    calls [stdOut$.next], the value is the transcript as it stands: the
    keystroke subscriber, the block that reports semantic diagnostics, the
    failure path, and the [finish], [clear] and [error] events (other events
    emit nothing).  The subscriber that forwards a runner's output chunk
    appends the chunk to the transcript and emits the chunk itself. *)
Theorem C2_emitted_values :
  (∀ data w, ∃ w',
      stdIn_next data w = Normal tt w' ∧
      stdOut_s (host w') = (stdOut_s (host w) ++ [stdOut (this w')])%list) ∧
  (∀ code errs w, ∃ w',
      report_errors code errs w = Normal tt w' ∧
      stdOut_s (host w') = (stdOut_s (host w) ++ [stdOut (this w')])%list) ∧
  (∀ req error w, ∃ w',
      launch_failed req error w = Normal tt w' ∧
      stdOut_s (host w') = (stdOut_s (host w) ++ [stdOut (this w')])%list) ∧
  (∀ t event w, ∃ w',
      on_event t event w = Normal tt w' ∧
      stdOut_s (host w') =
      (stdOut_s (host w) ++
       match event with
       | Ev_finish _ | Ev_clear | Ev_error _ => [stdOut (this w')]
       | _ => []
       end)%list) ∧
  (∀ data w, ∃ w',
      forward_stdOut data w = Normal tt w' ∧
      stdOut (this w') = stdOut (this w) ++ data ∧
      stdOut_s (host w') = (stdOut_s (host w) ++ [data])%list).
Proof.
  repeat split.
  - intros data w. destruct (stdIn_next_returns data w) as (w' & H & Hh).
    exists w'. by rewrite Hh.
  - intros code errs w. eexists. split; [apply report_errors_eq | reflexivity].
  - intros req error w. eexists. split; [apply launch_failed_eq |].
    by rewrite failed_host, failed_this.
  - intros t event w. destruct event; eexists; (split; [reflexivity |]);
      cbn; by rewrite ?app_nil_r.
  - intros data w. eexists. by split; [reflexivity |].
Qed.

(** C2, as the claim states it, fails: after the host has typed ["a"], a
    chunk ["b"] from the running program makes the transcript ["ab"], and the
    value the host receives is ["b"]. *)
Lemma C2_chunk_is_emitted_without_transcript :
  let w := Demo.play [Do_run "programa"; Do_stdIn "a"] in
  let w' := world_of (perform Demo.arquivo Demo.checkTree Demo.visit Demo.runner Demo.now
                        (Runner_stdOut 0 "b") w) in
  stdOut (this w') = "ab" ∧
  stdOut_s (host w') = ["a"; "b"] ∧
  last (stdOut_s (host w')) ≠ Some (stdOut (this w')).
Proof. repeat split. vm_compute. discriminate. Qed.


(** ** The pipeline *)

Section PipelineFacts.

Context {Tree : Type}.
Variable arquivo : string → list PortugolCodeError * option Tree.
Variable checkTree : Tree → option (list PortugolCodeError).
Variable visit : Tree → option string.
Variable runner : string → Construction.
Variable now : nat → Z.

#[local] Abbreviation the_bundle := (bundle arquivo checkTree visit now).
#[local] Abbreviation the_handover := (handover arquivo checkTree visit now).

Lemma run_eq (text : string) (w : World) :
  run arquivo checkTree visit runner now text w =
  runTranspiled runner (the_bundle text w) (the_handover text w).
Proof.
  unfold run, bundle, handover.
  by destruct (pipeline arquivo checkTree visit now text w).
Qed.

(** The syntax diagnostics of the bundle are the ones the parser reported,
    whether or not it threw. *)
Lemma bundle_parseErrors (text : string) (w : World) :
  parseErrors (the_bundle text w) = fst (arquivo text).
Proof.
  unfold bundle, pipeline, performance_now.
  destruct (arquivo text) as [d [t |]]; [| reflexivity].
  cbn [snd fst]. destruct (checkTree t); [| reflexivity].
  by destruct (visit t).
Qed.



(** The three timings, phase by phase: a phase that completed has
    [end - start]; a phase that was never started has [0 - 0]; the phase
    that threw has its start reading but no end reading. *)
Lemma bundle_times (text : string) (w : World) :
  times (the_bundle text w) =
  let n := ticks w in
  match snd (arquivo text) with
  | None => {| parse := 0 - now n; check := 0 - 0; transpile := 0 - 0 |}
  | Some tree =>
      match checkTree tree with
      | None =>
          {| parse := now (1 + n) - now n; check := 0 - now (2 + n); transpile := 0 - 0 |}
      | Some _ =>
          match visit tree with
          | None =>
              {| parse := now (1 + n) - now n;
                 check := now (3 + n) - now (2 + n);
                 transpile := 0 - now (4 + n) |}
          | Some _ =>
              {| parse := now (1 + n) - now n;
                 check := now (3 + n) - now (2 + n);
                 transpile := now (5 + n) - now (4 + n) |}
          end
      end
  end%Z.
Proof.
  unfold bundle, pipeline, performance_now.
  destruct (arquivo text) as [d [t |]]; [| reflexivity].
  cbn [snd fst]. destruct (checkTree t); [| reflexivity].
  by destruct (visit t).
Qed.


(** C7 fails when a phase throws.  The phase has read the clock at its
    start, and its end reading stays at the initial [0]; so with a clock
    whose readings are positive, the timing of the phase that threw is
    [0 - start], a negative number.  The phases after it were never started
    and have timing zero; the phases before it have [end - start]. *)
Theorem C7_throwing_phase_has_negative_timing (text : string) (w : World) :
  some_phase_throws arquivo checkTree visit text = true →
  (∀ n, (0 < now n)%Z) →
  (parse (times (the_bundle text w)) < 0 ∨
   check (times (the_bundle text w)) < 0 ∨
   transpile (times (the_bundle text w)) < 0)%Z.
Proof.
  intros Hthrow Hclock. rewrite bundle_times. unfold some_phase_throws in Hthrow.
  destruct (snd (arquivo text)) as [tree |].
  - destruct (checkTree tree).
    + destruct (visit tree); [discriminate |].
      right; right. cbn [transpile]. pose proof (Hclock (4 + ticks w)). lia.
    + right; left. cbn [check]. pose proof (Hclock (2 + ticks w)). lia.
  - left. cbn [parse]. pose proof (Hclock (ticks w)). lia.
Qed.

(** With a clock that never runs backwards, the timings of a run in which
    no phase throws are non-negative, and a phase that is never reached has
    timing zero. *)
Lemma timings_without_throw (text : string) (w : World) (tree : Tree)
    (errs : list PortugolCodeError) (out : string) :
  (∀ i j : nat, (i ≤ j)%nat → (now i ≤ now j)%Z) →
  snd (arquivo text) = Some tree → checkTree tree = Some errs → visit tree = Some out →
  (0 ≤ parse (times (the_bundle text w)) ∧ 0 ≤ check (times (the_bundle text w)) ∧
   0 ≤ transpile (times (the_bundle text w)))%Z.
Proof.
  intros Hmono Ha Hc Hv. rewrite bundle_times, Ha, Hc, Hv. cbn.
  pose proof (Hmono (ticks w) (S (ticks w))).
  pose proof (Hmono (S (S (ticks w))) (S (S (S (ticks w))))).
  pose proof (Hmono (S (S (S (S (ticks w))))) (S (S (S (S (S (ticks w))))))).
  lia.
Qed.

End PipelineFacts.

Lemma C7_throwing_phases_scenario :
  let times_of code :=
    times (bundle Demo.arquivo Demo.checkTree Demo.visit Demo.now code new_executor) in
  times_of "{" = {| parse := -10; check := 0; transpile := 0 |} ∧
  times_of "x = " = {| parse := 1; check := -12; transpile := 0 |} ∧
  times_of "?" = {| parse := 1; check := 1; transpile := -14 |} ∧
  (parse (times_of "{") < 0 ∨ check (times_of "{") < 0 ∨ transpile (times_of "{") < 0)%Z.
Proof.
  repeat (split; [reflexivity |]).
  apply (C7_throwing_phase_has_negative_timing
           Demo.arquivo Demo.checkTree Demo.visit Demo.now "{" new_executor).
  - reflexivity.
  - intros n. unfold Demo.now. lia.
Defined.

(** ** Subscriptions *)

(** No method assigns a private subscription field. *)
Lemma for_each_invariant {A} (P : World → Prop) (f : A → M unit) :
  (∀ x w, P w → P (world_of (f x w))) →
  ∀ l w, P w → P (world_of (for_each l f w)).
Proof.
  intros Hf l. induction l as [|x l IH]; intros w Hw; [assumption |].
  cbn [for_each]. rewrite bind_eq. specialize (Hf x w Hw).
  destruct (f x w); cbn [world_of] in *; [by apply IH | assumption].
Qed.

Lemma reset_handles (c : bool) (w : World) : handles (after_reset c w) = handles w.
Proof. unfold handles. rewrite reset_this. by destruct c. Qed.

Lemma warned_handles (req : Request) (w : World) : handles (warned req w) = handles w.
Proof. unfold warned. by destruct (Nat.ltb 0 (length (errors req))). Qed.

Lemma failed_handles (req : Request) (error : string) (w : World) :
  handles (failed req error w) = handles w.
Proof. unfold handles. by rewrite failed_this. Qed.

Lemma runTranspiled_handles runner (req : Request) (w : World) :
  handles (world_of (runTranspiled runner req w)) = handles w.
Proof.
  rewrite runTranspiled_eq. cbn [world_of]. cbv zeta.
  destruct (Nat.ltb 0 (length (parseErrors req))).
  - by rewrite failed_handles, reset_handles.
  - destruct (runner (js req)).
    + transitivity (handles (warned req (after_reset true w))); [reflexivity |].
      by rewrite warned_handles, reset_handles.
    + rewrite failed_handles.
      transitivity (handles (warned req (after_reset true w))); [reflexivity |].
      by rewrite warned_handles, reset_handles.
    + by rewrite failed_handles, warned_handles, reset_handles.
Qed.

Lemma stdIn_next_handles (data : string) (w : World) :
  handles (world_of (stdIn_next data w)) = handles w.
Proof.
  unfold stdIn_next.
  destruct (String.eqb data Js.BS); [| destruct (String.eqb data Js.CR)].
  - destruct (Nat.ltb 0 (String.length (stdInBuffer (this w)))) eqn:E;
      rewrite bind_eq, bind_eq; cbn [gets]; by rewrite E.
  - destruct (_runner (this w)) eqn:E;
      rewrite bind_eq, bind_eq; cbn [gets]; by rewrite E.
  - reflexivity.
Qed.

Lemma on_event_handles (t : Times) (event : PortugolEvent) (w : World) :
  handles (world_of (on_event t event w)) = handles w.
Proof. by destruct event. Qed.

Lemma pipeline_handles {Tree} (arquivo : string → list PortugolCodeError * option Tree)
    checkTree visit now (code : string) (w : World) :
  handles (handover arquivo checkTree visit now code w) = handles w.
Proof.
  unfold handover, pipeline, performance_now.
  destruct (arquivo code) as [d [t |]]; [| reflexivity].
  cbn [snd fst]. destruct (checkTree t); [| reflexivity].
  by destruct (visit t).
Qed.

Lemma perform_handles {Tree} (arquivo : string → list PortugolCodeError * option Tree)
    checkTree visit runner now (a : Action) (w : World) :
  handles (world_of (perform arquivo checkTree visit runner now a w)) = handles w.
Proof.
  destruct a; cbn [perform].
  - apply stdIn_next_handles.
  - by rewrite run_eq, runTranspiled_handles, pipeline_handles.
  - apply runTranspiled_handles.
  - apply reset_handles.
  - unfold runner_stdOut_next, runner_gets. rewrite bind_eq.
    apply (for_each_invariant (fun w' => handles w' = handles w)); [| reflexivity].
    by intros _ w' <-.
  - unfold runner_waitingForInput_next, runner_gets. rewrite bind_eq.
    apply (for_each_invariant (fun w' => handles w' = handles w)); [| reflexivity].
    by intros _ w' <-.
  - unfold runner_running_next, runner_gets. rewrite bind_eq.
    apply (for_each_invariant (fun w' => handles w' = handles w)); [| reflexivity].
    by intros _ w' <-.
  - unfold runner_run_next, runner_gets. rewrite bind_eq.
    apply (for_each_invariant (fun w' => handles w' = handles w)); [| reflexivity].
    intros t w' <-. apply on_event_handles.
Qed.

(** In every world a fresh executor can get into, the three private
    subscription fields are still [undefined]. *)
Lemma reachable_handles (w : World) : reachable w → handles w = [None; None; None].
Proof.
  intros (Tree & arquivo & checkTree & visit & runner & now & l & ->).
  unfold perform_all.
  apply (for_each_invariant (fun w' => handles w' = [None; None; None])); [| reflexivity].
  intros a w' <-. apply perform_handles.
Qed.

(** With nothing held in the private fields, [reset] closes no
    subscription: all it does to the heap is call [destroy()] on the current
    runner. *)
Lemma reset_heap_nothing_held (c : bool) (w : World) :
  handles w = [None; None; None] →
  heap (after_reset c w) = destroy_held (_runner (this w)) (heap w).
Proof.
  unfold handles. intros [= H1 H2 H3]. by rewrite reset_heap, H1, H2, H3.
Qed.

Lemma warned_heap (req : Request) (w : World) : heap (warned req w) = heap w.
Proof. unfold warned. by destruct (Nat.ltb 0 (length (errors req))). Qed.

(** A launch that gets its runner. *)
Lemma runTranspiled_built runner (req : Request) (bc : string) (w : World) :
  parseErrors req = [] →
  runner (js req) = Built bc →
  world_of (runTranspiled runner req w) = started req bc (warned req (after_reset true w)).
Proof. intros Hp Hb. by rewrite runTranspiled_eq, Hp, Hb. Qed.

(** A chunk from a runner with exactly one open subscription on its output
    stream is forwarded exactly once. *)
Lemma runner_stdOut_next_once (r : nat) (x : Runner) (data : string) (w : World) :
  heap w !! r = Some x →
  r_stdOut_s x = [true] →
  runner_stdOut_next r data w =
  Normal tt (on_host (push_stdOut_s data) (on_this (set_stdOut (stdOut (this w) ++ data)) w)).
Proof.
  intros Hx Hs. unfold runner_stdOut_next, runner_gets. rewrite bind_eq, Hx.
  cbn [from_option]. by rewrite Hs.
Qed.

(** A launch that gets its runner, from a world in which nothing is held:
    the previous runner is destroyed, every subscription already on the heap
    stays as it is, and the new runner joins the heap with its four
    subscriptions open. *)
Lemma runTranspiled_heap runner (req : Request) (bc : string) (w : World) :
  handles w = [None; None; None] →
  parseErrors req = [] →
  runner (js req) = Built bc →
  let w' := world_of (runTranspiled runner req w) in
  heap w' = (destroy_held (_runner (this w)) (heap w)
             ++ [wired (times req) (js req) bc])%list ∧
  _runner (this w') = Some (length (heap w)) ∧
  handles w' = [None; None; None].
Proof.
  intros Hw Hp Hb w'. subst w'.
  split; [| split].
  - rewrite (runTranspiled_built _ _ _ _ Hp Hb).
    cbn [started heap on_heap on_this].
    by rewrite warned_heap, (reset_heap_nothing_held _ _ Hw).
  - rewrite (runTranspiled_built _ _ _ _ Hp Hb).
    cbn [started this on_heap on_this _runner set_byteCode set_runner].
    by rewrite warned_heap, reset_heap_length.
  - by rewrite runTranspiled_handles.
Qed.

Section TwoRuns.

Context {Tree : Type}.
Variable arquivo : string → list PortugolCodeError * option Tree.
Variable checkTree : Tree → option (list PortugolCodeError).
Variable visit : Tree → option string.
Variable runner : string → Construction.
Variable now : nat → Z.

#[local] Abbreviation the_run := (run arquivo checkTree visit runner now).
#[local] Abbreviation the_bundle := (bundle arquivo checkTree visit now).
#[local] Abbreviation the_handover := (handover arquivo checkTree visit now).

Lemma handover_heap (code : string) (w : World) : heap (the_handover code w) = heap w.
Proof.
  unfold handover, pipeline, performance_now.
  destruct (arquivo code) as [d [t |]]; [| reflexivity].
  cbn [snd fst]. destruct (checkTree t); [| reflexivity].
  by destruct (visit t).
Qed.

Lemma handover_runner (code : string) (w : World) :
  _runner (this (the_handover code w)) = _runner (this w).
Proof.
  unfold handover, pipeline, performance_now.
  destruct (arquivo code) as [d [t |]]; [| reflexivity].
  cbn [snd fst]. destruct (checkTree t); [| reflexivity].
  by destruct (visit t).
Qed.

Lemma run_heap (code bc : string) (w : World) :
  handles w = [None; None; None] →
  fst (arquivo code) = [] →
  runner (js (the_bundle code w)) = Built bc →
  let w' := world_of (the_run code w) in
  heap w' = (destroy_held (_runner (this w)) (heap w)
             ++ [wired (times (the_bundle code w)) (js (the_bundle code w)) bc])%list ∧
  _runner (this w') = Some (length (heap w)) ∧
  handles w' = [None; None; None].
Proof.
  intros Hw Hp Hb w'. subst w'. rewrite run_eq.
  rewrite <- (pipeline_handles arquivo checkTree visit now code) in Hw.
  rewrite <- (bundle_parseErrors arquivo checkTree visit now code w) in Hp.
  destruct (runTranspiled_heap runner _ bc _ Hw Hp Hb) as (H1 & H2 & H3).
  by rewrite H1, H2, H3, handover_heap, handover_runner.
Qed.

(** C1 fails on the code.  Take a world in which no subscription is held
    in the private fields (every reachable world is such), and call [run]
    twice in a row on programs without syntax diagnostics for which a runner
    is constructed.  The second call destroys the first runner but closes
    none of its four subscriptions.  A chunk from the second runner is
    forwarded once; a chunk the first runner still produces is forwarded as
    well, into the transcript and onto the public output stream. *)
Theorem C1_first_runner_stays_subscribed (code1 code2 bc1 bc2 data : string) (w : World) :
  handles w = [None; None; None] →
  fst (arquivo code1) = [] →
  runner (js (the_bundle code1 w)) = Built bc1 →
  fst (arquivo code2) = [] →
  runner (js (the_bundle code2 (world_of (the_run code1 w)))) = Built bc2 →
  let first := length (heap w) in
  let second := S (length (heap w)) in
  let w1 := world_of (the_run code1 w) in
  let w2 := world_of (the_run code2 w1) in
  _runner (this w1) = Some first ∧
  _runner (this w2) = Some second ∧
  (∃ x, heap w2 !! first = Some x ∧ r_destroy_calls x = 1 ∧
        r_stdOut_s x = [true] ∧ r_waitingForInput_s x = [true] ∧
        r_running_s x = [true] ∧ fst <$> r_run_s x = [true]) ∧
  (∃ y, heap w2 !! second = Some y ∧ r_destroy_calls y = 0 ∧
        r_stdOut_s y = [true] ∧ r_waitingForInput_s y = [true] ∧
        r_running_s y = [true] ∧ fst <$> r_run_s y = [true]) ∧
  (let w3 := world_of (runner_stdOut_next second data w2) in
   stdOut (this w3) = stdOut (this w2) ++ data ∧
   stdOut_s (host w3) = (stdOut_s (host w2) ++ [data])%list) ∧
  (let w3 := world_of (runner_stdOut_next first data w2) in
   stdOut (this w3) = stdOut (this w2) ++ data ∧
   stdOut_s (host w3) = (stdOut_s (host w2) ++ [data])%list).
Proof.
  intros Hw Hp1 Hb1 Hp2 Hb2 first second w1 w2.
  destruct (run_heap code1 bc1 w Hw Hp1 Hb1) as (H1 & R1 & Hw1).
  fold w1 in H1, R1, Hw1, Hb2.
  destruct (run_heap code2 bc2 w1 Hw1 Hp2 Hb2) as (H2 & R2 & _).
  fold w2 in H2, R2.
  set (old := destroy_held (_runner (this w)) (heap w)) in *.
  assert (L0 : length old = first) by apply destroy_held_length.
  assert (L1 : length (heap w1) = second)
    by (rewrite H1, length_app, L0; cbn; lia).
  rewrite R1, H1 in H2. cbn [destroy_held from_option] in H2.
  fold first in H2. rewrite <- L0, alter_last in H2.
  assert (F : heap w2 !! first =
              Some (call_destroy (wired (times (the_bundle code1 w)) (js (the_bundle code1 w)) bc1))).
  { rewrite H2, lookup_app_l by (rewrite length_app; cbn; lia).
    rewrite <- L0. apply lookup_last. }
  assert (S2 : heap w2 !! second =
               Some (wired (times (the_bundle code2 w1)) (js (the_bundle code2 w1)) bc2)).
  { rewrite H2. replace second with
      (length (old ++ [call_destroy
                         (wired (times (the_bundle code1 w)) (js (the_bundle code1 w)) bc1)])%list)
      by (rewrite length_app; cbn; lia).
    apply lookup_last. }
  split; [exact R1 |]. split; [by rewrite R2, L1 |].
  split; [by eexists; split; [exact F |] |].
  split; [by eexists; split; [exact S2 |] |].
  split.
  - by rewrite (runner_stdOut_next_once _ _ data _ S2).
  - by rewrite (runner_stdOut_next_once _ _ data _ F).
Qed.

End TwoRuns.

Lemma C1_two_runs_scenario :
  let run := run Demo.arquivo Demo.checkTree Demo.visit Demo.runner Demo.now in
  let w1 := world_of (run "programa a" new_executor) in
  let w2 := world_of (run "programa b" w1) in
  _runner (this w1) = Some 0 ∧
  _runner (this w2) = Some 1 ∧
  (∃ x, heap w2 !! 0 = Some x ∧ r_destroy_calls x = 1 ∧
        r_stdOut_s x = [true] ∧ r_waitingForInput_s x = [true] ∧
        r_running_s x = [true] ∧ fst <$> r_run_s x = [true]) ∧
  (∃ y, heap w2 !! 1 = Some y ∧ r_destroy_calls y = 0 ∧
        r_stdOut_s y = [true] ∧ r_waitingForInput_s y = [true] ∧
        r_running_s y = [true] ∧ fst <$> r_run_s y = [true]) ∧
  (let w3 := world_of (runner_stdOut_next 1 "texto" w2) in
   stdOut (this w3) = stdOut (this w2) ++ "texto" ∧
   stdOut_s (host w3) = (stdOut_s (host w2) ++ ["texto"])%list) ∧
  (let w3 := world_of (runner_stdOut_next 0 "texto" w2) in
   stdOut (this w3) = stdOut (this w2) ++ "texto" ∧
   stdOut_s (host w3) = (stdOut_s (host w2) ++ ["texto"])%list).
Proof.
  apply (C1_first_runner_stays_subscribed Demo.arquivo Demo.checkTree Demo.visit
           Demo.runner Demo.now "programa a" "programa b"
           "bytecode(js(programa a))" "bytecode(js(programa b))" "texto"
           new_executor); reflexivity.
Defined.

(** * Further properties of the executor *)

(** ** Keystrokes *)

Lemma ordinary_spec (data : string) :
  ordinary data = true →
  String.eqb data Js.BS = false ∧ String.eqb data Js.CR = false.
Proof.
  unfold ordinary. destruct (String.eqb data Js.BS), (String.eqb data Js.CR); by intros.
Qed.

Lemma stdIn_next_ordinary (data : string) (w : World) :
  ordinary data = true →
  stdIn_next data w =
  Normal tt
    (on_host (push_stdOut_s (stdOut (this w) ++ data))
       (on_this (fun e => set_stdOut (stdOut e ++ data)
                            (set_stdInBuffer (stdInBuffer e ++ data) e)) w)).
Proof.
  intros [Hb Hc]%ordinary_spec. unfold stdIn_next. by rewrite Hb, Hc.
Qed.

Lemma stdIn_next_CR (w : World) :
  stdIn_next Js.CR w =
  Normal tt
    (on_host (push_stdOut_s (stdOut (this w) ++ Js.LF))
       (on_this (fun e => set_stdOut (stdOut e ++ Js.LF) (set_stdInBuffer "" e))
          (on_heap (from_option (fun r => alter (receive_stdIn (stdInBuffer (this w))) r) id
                      (_runner (this w))) w))).
Proof.
  destruct w as [[r ? ? ? ? ? ? ? ? ?] ? ? ?]. by destruct r.
Qed.

Lemma stdIn_next_BS (w : World) :
  stdIn_next Js.BS w =
  Normal tt
    (on_host (push_stdOut_s
                (if Nat.ltb 0 (String.length (stdInBuffer (this w)))
                 then Js.slice_0_m1 (stdOut (this w)) else stdOut (this w)))
       (if Nat.ltb 0 (String.length (stdInBuffer (this w)))
        then on_this (fun e => set_stdOut (Js.slice_0_m1 (stdOut e))
                                 (set_stdInBuffer (Js.slice_0_m1 (stdInBuffer e)) e)) w
        else w)).
Proof.
  destruct w as [[r bc buf out ? ? ? ? ? ?] ? ? ?]. by destruct buf.
Qed.

Lemma substring_whole_prefix (a b : string) :
  String.substring 0 (String.length a) (a ++ b) = a.
Proof.
  induction a as [|x a IH]; [by destruct b | exact (f_equal (String x) IH)].
Qed.

(** [slice(0, -1)] undoes the append of one character. *)
Lemma slice_0_m1_snoc (s : string) (c : Ascii.ascii) :
  Js.slice_0_m1 (s ++ String c "") = s.
Proof.
  unfold Js.slice_0_m1. rewrite length_append. cbn [String.length].
  replace (String.length s + 1 - 1) with (String.length s) by lia.
  apply substring_whole_prefix.
Qed.

(** What a run of ordinary keystrokes does: each value is appended to the
    buffer and to the transcript, and the transcript is emitted after each. *)
Lemma type_all_ordinary (ds : list string) (w : World) :
  forallb ordinary ds = true →
  ∃ w', type_all ds w = Normal tt w' ∧
        stdInBuffer (this w') = stdInBuffer (this w) ++ Js.join ds ∧
        stdOut (this w') = stdOut (this w) ++ Js.join ds ∧
        _runner (this w') = _runner (this w) ∧
        heap w' = heap w ∧
        length (stdOut_s (host w')) = length (stdOut_s (host w)) + length ds.
Proof.
  revert w. induction ds as [|d ds IH]; intros w H.
  - exists w. cbn. by rewrite !append_nil_r, Nat.add_0_r.
  - cbn [forallb] in H. apply andb_prop in H as [Hd Hds].
    unfold type_all. cbn [for_each]. rewrite bind_eq, (stdIn_next_ordinary _ _ Hd).
    destruct (IH (on_host (push_stdOut_s (stdOut (this w) ++ d))
                    (on_this (fun e => set_stdOut (stdOut e ++ d)
                                         (set_stdInBuffer (stdInBuffer e ++ d) e)) w)) Hds)
      as (w' & Hrun & Hbuf & Hout & Hr & Hh & Hn).
    exists w'. split; [exact Hrun |].
    rewrite Hbuf, Hout, Hr, Hh, Hn, join_cons. cbn.
    rewrite !append_assoc, length_app. cbn. repeat split; lia.
Qed.

Lemma stdIn_next_cases (data : string) :
  data = Js.BS ∨ data = Js.CR ∨ ordinary data = true.
Proof.
  unfold ordinary.
  destruct (String.eqb_spec data Js.BS) as [-> | _]; [by left |].
  destruct (String.eqb_spec data Js.CR) as [-> | _]; [by right; left | by right; right].
Qed.

(** X1: a line typed as ordinary values and ended by a carriage return is
    committed whole.  The buffer is empty afterwards, the transcript has
    gained the typed text and one newline and is the last value emitted,
    and the runner held in [_runner], if there is one, has received what was
    in the buffer followed by the typed text; with no runner the line is
    dropped. *)
Theorem X1_typed_line_is_committed (ds : list string) (w : World) :
  forallb ordinary ds = true →
  ∃ w', (type_all ds;; stdIn_next Js.CR) w = Normal tt w' ∧
        stdInBuffer (this w') = "" ∧
        stdOut (this w') = stdOut (this w) ++ Js.join ds ++ Js.LF ∧
        last (stdOut_s (host w')) = Some (stdOut (this w')) ∧
        heap w' =
          from_option
            (fun r => alter (receive_stdIn (stdInBuffer (this w) ++ Js.join ds)) r) id
            (_runner (this w)) (heap w) ∧
        (∀ r x, _runner (this w) = Some r → heap w !! r = Some x →
                r_stdIn <$> heap w' !! r =
                Some (r_stdIn x ++ [(stdInBuffer (this w) ++ Js.join ds)%string])%list).
Proof.
  intros H. destruct (type_all_ordinary ds w H) as (w1 & Hrun & Hbuf & Hout & Hr & Hh & _).
  eexists. split; [rewrite bind_eq, Hrun; apply stdIn_next_CR |].
  cbn [this host heap on_host on_this on_heap stdInBuffer stdOut set_stdOut set_stdInBuffer
         stdOut_s push_stdOut_s].
  rewrite Hbuf, Hout, Hr, Hh, last_snoc, append_assoc.
  repeat split.
  intros r x -> Hx. cbn [from_option]. by rewrite list_lookup_alter_eq, Hx.
Qed.

Lemma X1_typed_line_scenario :
  let w := Demo.play [Do_run "programa"; Do_stdIn "5"; Do_stdIn Js.BS] in
  forallb ordinary ["6"; "7"] = true ∧
  ∃ w', (type_all ["6"; "7"];; stdIn_next Js.CR) w = Normal tt w' ∧
        stdInBuffer (this w') = "" ∧
        stdOut (this w') = "67" ++ Js.LF ∧
        r_stdIn <$> heap w' = [["67"]].
Proof.
  intros w. split; [reflexivity |].
  destruct (X1_typed_line_is_committed ["6"; "7"] w eq_refl)
    as (w' & Hrun & Hbuf & Hout & _ & Hheap & _).
  exists w'. split; [exact Hrun |]. split; [exact Hbuf |].
  split; [by rewrite Hout |]. by rewrite Hheap.
Defined.

(** X2: a backspace right after an ordinary value removes exactly the last
    character of that value, from the buffer and from the transcript alike;
    after a value of one character both are what they were before it. *)
Theorem X2_backspace_removes_last_typed_character
    (d : string) (c : Ascii.ascii) (w : World) :
  ordinary (d ++ String c "") = true →
  ∃ w', (stdIn_next (d ++ String c "");; stdIn_next Js.BS) w = Normal tt w' ∧
        stdInBuffer (this w') = stdInBuffer (this w) ++ d ∧
        stdOut (this w') = stdOut (this w) ++ d.
Proof.
  intros H. eexists.
  split; [rewrite bind_eq, (stdIn_next_ordinary _ _ H); apply stdIn_next_BS |].
  cbn [this on_host on_this stdInBuffer stdOut set_stdOut set_stdInBuffer].
  rewrite <- !append_assoc, length_append. cbn [String.length].
  replace (Nat.ltb 0 (String.length (stdInBuffer (this w) ++ d) + 1)) with true
    by (symmetry; apply Nat.ltb_lt; lia).
  cbn [this on_host on_this stdInBuffer stdOut set_stdOut set_stdInBuffer].
  by rewrite <- !append_assoc, !slice_0_m1_snoc.
Qed.

Lemma X2_backspace_scenario :
  ordinary "5" = true ∧
  ∃ w', (stdIn_next "5";; stdIn_next Js.BS) cleared_world = Normal tt w' ∧
        stdInBuffer (this w') = stdInBuffer (this cleared_world) ∧
        stdOut (this w') = stdOut (this cleared_world).
Proof.
  split; [reflexivity |].
  destruct (X2_backspace_removes_last_typed_character "" (Ascii.ascii_of_nat 53)
              cleared_world eq_refl)
    as (w' & Hrun & Hbuf & Hout).
  exists w'. split; [exact Hrun |]. by rewrite Hbuf, Hout, !append_nil_r.
Defined.

(** X3: a backspace that finds the buffer empty changes neither the buffer
    nor the transcript nor anything else of the executor; the unchanged
    transcript is emitted once more. *)
Theorem X3_backspace_on_empty_buffer (w : World) :
  stdInBuffer (this w) = "" →
  stdIn_next Js.BS w = Normal tt (on_host (push_stdOut_s (stdOut (this w))) w).
Proof. intros H. by rewrite stdIn_next_BS, H. Qed.

Lemma X3_backspace_on_fresh_executor :
  stdInBuffer (this new_executor) = "" ∧
  stdIn_next Js.BS new_executor =
  Normal tt (on_host (push_stdOut_s (stdOut (this new_executor))) new_executor).
Proof.
  split; [reflexivity |]. by apply (X3_backspace_on_empty_buffer new_executor).
Defined.

Lemma slice_0_m1_append (p s : string) :
  s ≠ "" → Js.slice_0_m1 (p ++ s) = p ++ Js.slice_0_m1 s.
Proof.
  intros [c Hc]%slice_0_m1_last. rewrite Hc at 1.
  by rewrite <- append_assoc, slice_0_m1_snoc.
Qed.

Lemma stdIn_next_echo (data : string) (w : World) :
  echo_pending w → echo_pending (world_of (stdIn_next data w)).
Proof.
  intros [shown Hs]. destruct (stdIn_next_cases data) as [-> | [-> | H]].
  - rewrite stdIn_next_BS. cbn [world_of].
    destruct (stdInBuffer (this w)) as [|a buf] eqn:E.
    + exists shown. cbn. by rewrite E, Hs.
    + exists shown. cbn [Nat.ltb Nat.leb String.length].
      cbn [this on_host on_this stdInBuffer stdOut set_stdOut set_stdInBuffer].
      rewrite E, Hs. by apply slice_0_m1_append.
  - rewrite stdIn_next_CR. exists (stdOut (this w) ++ Js.LF).
    cbn [world_of this on_host on_this on_heap stdInBuffer stdOut set_stdOut
           set_stdInBuffer].
    by rewrite append_nil_r.
  - rewrite (stdIn_next_ordinary _ _ H). exists shown.
    cbn [world_of this on_host on_this stdInBuffer stdOut set_stdOut set_stdInBuffer].
    by rewrite Hs, append_assoc.
Qed.

(** X4: as long as only keystrokes arrive, whatever they are, the
    transcript keeps ending with the keystrokes not yet committed. *)
Theorem X4_transcript_ends_with_pending_input (ds : list string) (w : World) :
  echo_pending w → echo_pending (world_of (type_all ds w)).
Proof.
  intros H. unfold type_all.
  apply (for_each_invariant echo_pending); [| exact H].
  intros d w'. apply stdIn_next_echo.
Qed.

Lemma X4_fresh_executor_scenario :
  echo_pending new_executor ∧
  echo_pending (world_of (type_all ["a"; "b"; Js.BS; Js.CR; "c"; Js.BS; Js.BS] new_executor)).
Proof.
  assert (H : echo_pending new_executor) by (by exists "").
  split; [exact H |]. by apply X4_transcript_ends_with_pending_input.
Defined.

(** ** No call throws *)

Lemma for_each_returns {A} (f : A → M unit) :
  (∀ x w, ∃ w', f x w = Normal tt w') →
  ∀ l w, ∃ w', for_each l f w = Normal tt w'.
Proof.
  intros Hf l. induction l as [|x l IH]; intros w; [by exists w |].
  cbn [for_each]. rewrite bind_eq. destruct (Hf x w) as [w1 ->]. apply IH.
Qed.

Lemma on_event_returns (t : Times) (event : PortugolEvent) (w : World) :
  ∃ w', on_event t event w = Normal tt w'.
Proof. destruct event; by eexists. Qed.

Lemma perform_returns {Tree} (arquivo : string → list PortugolCodeError * option Tree)
    checkTree visit runner now (a : Action) (w : World) :
  ∃ w', perform arquivo checkTree visit runner now a w = Normal tt w'.
Proof.
  destruct a; cbn [perform].
  - destruct (stdIn_next_returns data w) as (w' & H & _). eauto.
  - rewrite run_eq, runTranspiled_eq. eauto.
  - rewrite runTranspiled_eq. eauto.
  - unfold stop. rewrite reset_returns. eauto.
  - unfold runner_stdOut_next, runner_gets. rewrite bind_eq.
    apply for_each_returns. intros _ w'. by eexists.
  - unfold runner_waitingForInput_next, runner_gets. rewrite bind_eq.
    apply for_each_returns. intros _ w'. by eexists.
  - unfold runner_running_next, runner_gets. rewrite bind_eq.
    apply for_each_returns. intros _ w'. by eexists.
  - unfold runner_run_next, runner_gets. rewrite bind_eq.
    apply for_each_returns. intros t w'. apply on_event_returns.
Qed.

(** X5: no sequence of calls by the host ([stdIn], [run], [runTranspiled],
    [stop]) and of values pushed by runners makes the executor throw,
    whatever the parser, the checker, the generator and the runner class
    do, and from any world: every throw of a collaborator is caught inside
    [run] or [runTranspiled]. *)
Theorem X5_executor_never_throws {Tree}
    (arquivo : string → list PortugolCodeError * option Tree)
    (checkTree : Tree → option (list PortugolCodeError)) (visit : Tree → option string)
    (runner : string → Construction) (now : nat → Z) (l : list Action) (w : World) :
  ∃ w', perform_all arquivo checkTree visit runner now l w = Normal tt w'.
Proof. apply for_each_returns. intros a w'. apply perform_returns. Qed.

(** ** What every reachable world satisfies *)

Lemma consistent_core (w w' : World) : core w' = core w → consistent w → consistent w'.
Proof.
  unfold consistent, current_is_last. intros H.
  pose proof (f_equal (fun p => fst (fst (fst p))) H) as H1.
  pose proof (f_equal (fun p => snd (fst (fst p))) H) as H2.
  pose proof (f_equal (fun p => snd (fst p)) H) as H3.
  pose proof (f_equal snd H) as H4.
  cbn [core fst snd] in H1, H2, H3, H4. by rewrite H1, H2, H3, H4.
Qed.

Lemma fmap_alter_unchanged {A B} (g : A → B) (f : A → A) (i : nat) (l : list A) :
  (∀ x, g (f x) = g x) → g <$> alter f i l = g <$> l.
Proof.
  intros H. rewrite (list_fmap_alter g f id); [by apply list_alter_id |].
  apply Forall_forall. intros x _. apply H.
Qed.

(** Calling [destroy()] on a runner, or sending it a line, touches neither
    its subscriptions nor its serialized form. *)
Lemma consistent_alter (f : Runner → Runner) (i : nat) (w w' : World) :
  (∀ x, r_byteCode (f x) = r_byteCode x) →
  (∀ x, well_wired x → well_wired (f x)) →
  handles w' = handles w → _runner (this w') = _runner (this w) →
  byteCode (this w') = byteCode (this w) → heap w' = alter f i (heap w) →
  consistent w → consistent w'.
Proof.
  intros Hbc Hww H1 H2 H3 H4 (Hh & Hall & Hcur).
  unfold consistent, current_is_last in *. rewrite H1, H2, H3, H4.
  split; [exact Hh |]. split; [apply Forall_alter; [exact Hall | auto] |].
  destruct (_runner (this w)) as [r |]; [| exact I].
  rewrite length_alter, <- list_lookup_fmap, (fmap_alter_unchanged _ _ _ _ Hbc),
    list_lookup_fmap.
  exact Hcur.
Qed.

Lemma after_reset_consistent (c : bool) (w : World) :
  consistent w → consistent (after_reset c w).
Proof.
  intros Hw. pose proof Hw as (Hh & _ & _).
  assert (H1 : handles (after_reset c w) = handles w) by apply reset_handles.
  assert (H2 : _runner (this (after_reset c w)) = _runner (this w))
    by (rewrite reset_this; by destruct c).
  assert (H3 : byteCode (this (after_reset c w)) = byteCode (this w))
    by (rewrite reset_this; by destruct c).
  pose proof (reset_heap_nothing_held c w Hh) as H4.
  destruct (_runner (this w)) as [r |] eqn:E.
  - apply (consistent_alter call_destroy r w); try done. by rewrite E.
  - apply (consistent_core w); [| exact Hw]. unfold core. by rewrite H1, H2, H3, H4, E.
Qed.

Lemma warned_core (req : Request) (w : World) : core (warned req w) = core w.
Proof. unfold warned. by destruct (Nat.ltb 0 (length (errors req))). Qed.

Lemma failed_consistent (req : Request) (error : string) (w : World) :
  consistent w → consistent (failed req error w).
Proof.
  intros Hw. unfold failed.
  eapply consistent_core; [| apply (after_reset_consistent false);
                             eapply consistent_core; [| exact Hw]]; reflexivity.
Qed.

Lemma started_consistent (req : Request) (bc : string) (w : World) :
  consistent w → consistent (started req bc w).
Proof.
  intros (Hh & Hall & _). split; [exact Hh |]. split.
  - cbn [started heap on_heap on_this]. apply Forall_app_2; [exact Hall |].
    by repeat constructor.
  - unfold current_is_last.
    cbn [started heap this on_heap on_this _runner byteCode set_byteCode set_runner].
    split; [rewrite length_app; cbn; lia | by rewrite lookup_last].
Qed.

Lemma runTranspiled_consistent runner (req : Request) (w : World) :
  consistent w → consistent (world_of (runTranspiled runner req w)).
Proof.
  intros Hw. rewrite runTranspiled_eq. cbn [world_of]. cbv zeta.
  assert (H1 : consistent (warned req (after_reset true w))).
  { eapply consistent_core; [apply warned_core |]. by apply after_reset_consistent. }
  destruct (Nat.ltb 0 (length (parseErrors req))).
  - by apply failed_consistent, after_reset_consistent.
  - destruct (runner (js req)).
    + by apply started_consistent.
    + apply failed_consistent. destruct H1 as (Hh & Hall & _).
      split; [exact Hh |]. split; [exact Hall | exact I].
    + by apply failed_consistent.
Qed.

Lemma stdIn_next_consistent (data : string) (w : World) :
  consistent w → consistent (world_of (stdIn_next data w)).
Proof.
  intros Hw. destruct (stdIn_next_cases data) as [-> | [-> | H]].
  - rewrite stdIn_next_BS. cbn [world_of].
    eapply consistent_core; [| exact Hw].
    by destruct (Nat.ltb 0 (String.length (stdInBuffer (this w)))).
  - rewrite stdIn_next_CR. cbn [world_of].
    destruct (_runner (this w)) as [r |] eqn:E.
    + eapply (consistent_alter (receive_stdIn (stdInBuffer (this w))) r w);
        try exact Hw; try reflexivity; try done;
        cbn [heap on_host on_this on_heap]; by rewrite E.
    + eapply consistent_core; [| exact Hw].
      destruct w as [[r' ? ? ? ? ? ? ? ? ?] ? ? ?]. cbn in E. by subst r'.
  - rewrite (stdIn_next_ordinary _ _ H). by eapply consistent_core; [| exact Hw].
Qed.

Lemma handover_core {Tree} (arquivo : string → list PortugolCodeError * option Tree)
    checkTree visit now (text : string) (w : World) :
  core (handover arquivo checkTree visit now text w) = core w.
Proof.
  unfold handover, pipeline, performance_now.
  destruct (arquivo text) as [d [t |]]; [| reflexivity].
  cbn [snd fst]. destruct (checkTree t); [| reflexivity].
  by destruct (visit t).
Qed.

Lemma on_event_core (t : Times) (event : PortugolEvent) (w : World) :
  core (world_of (on_event t event w)) = core w.
Proof. by destruct event. Qed.

Lemma perform_consistent {Tree} (arquivo : string → list PortugolCodeError * option Tree)
    checkTree visit runner now (a : Action) (w : World) :
  consistent w → consistent (world_of (perform arquivo checkTree visit runner now a w)).
Proof.
  intros Hw. destruct a; cbn [perform].
  - by apply stdIn_next_consistent.
  - rewrite run_eq. apply runTranspiled_consistent.
    eapply consistent_core; [apply handover_core | exact Hw].
  - by apply runTranspiled_consistent.
  - by apply after_reset_consistent.
  - unfold runner_stdOut_next, runner_gets. rewrite bind_eq.
    apply (for_each_invariant consistent); [| exact Hw].
    intros _ w' Hw'. by eapply consistent_core; [| exact Hw'].
  - unfold runner_waitingForInput_next, runner_gets. rewrite bind_eq.
    apply (for_each_invariant consistent); [| exact Hw].
    intros _ w' Hw'. by eapply consistent_core; [| exact Hw'].
  - unfold runner_running_next, runner_gets. rewrite bind_eq.
    apply (for_each_invariant consistent); [| exact Hw].
    intros _ w' Hw'. by eapply consistent_core; [| exact Hw'].
  - unfold runner_run_next, runner_gets. rewrite bind_eq.
    apply (for_each_invariant consistent); [| exact Hw].
    intros t w' Hw'. eapply consistent_core; [apply on_event_core | exact Hw'].
Qed.

Lemma new_executor_consistent : consistent new_executor.
Proof. split; [reflexivity |]. split; [constructor | exact I]. Qed.

Lemma reachable_consistent (w : World) : reachable w → consistent w.
Proof.
  intros (Tree & arquivo & checkTree & visit & runner & now & l & ->).
  unfold perform_all.
  apply (for_each_invariant consistent); [| apply new_executor_consistent].
  intros a w'. apply perform_consistent.
Qed.

Lemma play_reachable (l : list Action) : reachable (Demo.play l).
Proof.
  exists string, Demo.arquivo, Demo.checkTree, Demo.visit, Demo.runner, Demo.now, l.
  reflexivity.
Qed.

(** X6: in every world a fresh executor can get into, the three private
    subscription fields are still undefined, and every runner constructed
    so far, destroyed or not, has exactly one subscription on each of its
    four streams, still open, and has had [run()] called once: the executor
    never closes a subscription and never subscribes twice. *)
Theorem X6_subscriptions_are_never_closed (w : World) :
  reachable w →
  handles w = [None; None; None] ∧
  ∀ r x, heap w !! r = Some x →
         r_stdOut_s x = [true] ∧ r_waitingForInput_s x = [true] ∧
         r_running_s x = [true] ∧ fst <$> r_run_s x = [true] ∧ r_run_calls x = 1.
Proof.
  intros (Hh & Hall & _)%reachable_consistent. split; [exact Hh |].
  intros r x Hx. by apply (Forall_lookup_1 _ _ _ _ Hall Hx).
Qed.

Lemma X6_three_runs_and_a_stop_scenario :
  let w := Demo.play [Do_run "a"; Do_stdIn "1"; Do_run "{"; Do_run "b"; Do_stop;
                      Runner_stdOut 0 "x"; Do_run "c"] in
  reachable w ∧
  handles w = [None; None; None] ∧
  length (heap w) = 3 ∧
  ∀ r x, heap w !! r = Some x →
         r_stdOut_s x = [true] ∧ r_waitingForInput_s x = [true] ∧
         r_running_s x = [true] ∧ fst <$> r_run_s x = [true] ∧ r_run_calls x = 1.
Proof.
  intros w. split; [apply play_reachable |].
  destruct (X6_subscriptions_are_never_closed w (play_reachable _)) as [Hh Hall].
  split; [exact Hh |]. split; [reflexivity | exact Hall].
Defined.

(** X7: in every reachable world the runner held in [_runner], if any, is
    the one constructed last, and [byteCode] is its serialized form. *)
Theorem X7_current_runner_is_the_last_constructed (w : World) (r : nat) :
  reachable w →
  _runner (this w) = Some r →
  S r = length (heap w) ∧
  ∃ x, heap w !! r = Some x ∧ r_byteCode x = byteCode (this w).
Proof.
  intros (_ & _ & Hcur)%reachable_consistent Hr.
  unfold current_is_last in Hcur. rewrite Hr in Hcur. destruct Hcur as [Hlen Hbc].
  split; [exact Hlen |].
  destruct (heap w !! r) as [x |]; [| discriminate].
  exists x. split; [reflexivity |]. by injection Hbc.
Qed.

Lemma X7_after_a_failed_relaunch_scenario :
  let w := Demo.play [Do_run "a"; Do_run "b"; Do_run "programa com erro de sintaxe"] in
  reachable w ∧ _runner (this w) = Some 1 ∧
  2 = length (heap w) ∧
  ∃ x, heap w !! 1 = Some x ∧ r_byteCode x = byteCode (this w).
Proof.
  intros w. split; [apply play_reachable |]. split; [reflexivity |].
  by apply (X7_current_runner_is_the_last_constructed w 1 (play_reachable _)).
Defined.

Lemma for_each_one {A} (f : A → M unit) (x : A) (w w' : World) :
  f x w = Normal tt w' → for_each [x] f w = Normal tt w'.
Proof. intros H. cbn [for_each]. by rewrite bind_eq, H. Qed.

(** ** What a launch does besides the transcript *)


Lemma warned_flags (req : Request) (w : World) :
  waitingForInput (this (warned req w)) = waitingForInput (this w) ∧
  running (this (warned req w)) = running (this w).
Proof. unfold warned. by destruct (Nat.ltb 0 (length (errors req))). Qed.


(** X13: both flags are false when a launch returns, whichever way it
    went; only the runner's own streams set them afterwards. *)
Theorem X13_flags_are_false_after_a_launch runner (req : Request) (w : World) :
  waitingForInput (this (world_of (runTranspiled runner req w))) = false ∧
  running (this (world_of (runTranspiled runner req w))) = false.
Proof.
  rewrite runTranspiled_eq. cbn [world_of]. cbv zeta.
  destruct (warned_flags req (after_reset true w)) as [Hw Hr].
  rewrite reset_this in Hw, Hr. cbn in Hw, Hr.
  destruct (Nat.ltb 0 (length (parseErrors req))); [by rewrite failed_this |].
  destruct (runner (js req)); [| by rewrite failed_this | by rewrite failed_this].
  cbn [started this on_heap on_this waitingForInput running set_byteCode set_runner].
  by rewrite Hw, Hr.
Qed.

(** X12: a launch of a bundle without diagnostics for which a runner is
    constructed is silent: the transcript is empty, nothing is emitted on
    any public subject, nothing is logged, the hook is not called; the heap
    has one more runner, which is the current one, and [byteCode] is its
    serialized form. *)
Theorem X12_clean_launch_is_silent runner (req : Request) (bc : string) (w : World) :
  parseErrors req = [] →
  errors req = [] →
  runner (js req) = Built bc →
  let w' := world_of (runTranspiled runner req w) in
  stdOut (this w') = "" ∧
  host w' = host w ∧
  length (heap w') = S (length (heap w)) ∧
  _runner (this w') = Some (length (heap w)) ∧
  heap w' !! length (heap w) = Some (wired (times req) (js req) bc) ∧
  byteCode (this w') = bc.
Proof.
  intros Hp He Hb w'. subst w'. rewrite (runTranspiled_built _ _ _ _ Hp Hb).
  unfold warned. rewrite He. cbn [length Nat.ltb Nat.leb].
  cbn [started this host heap on_heap on_this stdOut _runner byteCode set_byteCode
         set_runner].
  rewrite after_reset_stdOut, reset_host, length_app, reset_heap_length.
  repeat split; [cbn; lia |].
  rewrite <- (reset_heap_length true w). apply lookup_last.
Qed.

Lemma X12_clean_launch_scenario :
  let req := Demo.request "programa { }" [] [] in
  let w := Demo.play [Do_run "a"; Do_stdIn "x"] in
  parseErrors req = [] ∧ errors req = [] ∧ Demo.runner (js req) = Built "bytecode(js)" ∧
  stdOut (this (world_of (runTranspiled Demo.runner req w))) = "" ∧
  host (world_of (runTranspiled Demo.runner req w)) = host w ∧
  byteCode (this (world_of (runTranspiled Demo.runner req w))) = "bytecode(js)".
Proof.
  intros req w.
  destruct (X12_clean_launch_is_silent Demo.runner req "bytecode(js)" w
              eq_refl eq_refl eq_refl) as (H1 & H2 & _ & _ & _ & H3).
  split; [reflexivity |]. split; [reflexivity |]. split; [reflexivity |].
  split; [exact H1 |]. split; [exact H2 | exact H3].
Defined.

Lemma failed_heap (req : Request) (error : string) (w : World) :
  handles w = [None; None; None] →
  heap (failed req error w) = destroy_held (_runner (this w)) (heap w).
Proof.
  intros Hw. unfold failed. cbn [heap on_host].
  by rewrite reset_heap_nothing_held.
Qed.

(** X10: how often a launch calls [destroy()] on the runner it finds in
    [_runner].  Once, by the opening reset, when a runner is constructed or
    when the runner class returns nothing usable (the field has then been
    overwritten); twice, by the opening reset and again by the reset of the
    [catch] block, when there are syntax diagnostics or the runner class
    throws. *)
Theorem X10_destroy_calls_of_a_launch runner (req : Request) (w : World)
    (r : nat) (x : Runner) :
  handles w = [None; None; None] →
  _runner (this w) = Some r →
  heap w !! r = Some x →
  r_destroy_calls <$> heap (world_of (runTranspiled runner req w)) !! r =
  Some (r_destroy_calls x +
        if Nat.ltb 0 (length (parseErrors req)) then 2
        else match runner (js req) with
             | Fails _ => 2
             | _ => 1
             end).
Proof.
  intros Hw Hr Hx.
  assert (H1 : heap (after_reset true w) = alter call_destroy r (heap w))
    by (by rewrite reset_heap_nothing_held, Hr).
  assert (H2 : _runner (this (after_reset true w)) = Some r)
    by (by rewrite reset_this).
  assert (H3 : handles (after_reset true w) = [None; None; None])
    by (by rewrite reset_handles).
  assert (H4 : alter call_destroy r (heap w) !! r = Some (call_destroy x))
    by (by rewrite list_lookup_alter_eq, Hx).
  assert (H5 : core (warned req (after_reset true w)) = core (after_reset true w))
    by apply warned_core.
  assert (H6 : handles (warned req (after_reset true w)) = [None; None; None])
    by (by rewrite warned_handles).
  assert (H7 : _runner (this (warned req (after_reset true w))) = Some r)
    by (rewrite <- H2; exact (f_equal (fun p => snd (fst p)) H5)).
  rewrite runTranspiled_eq. cbn [world_of]. cbv zeta.
  destruct (Nat.ltb 0 (length (parseErrors req))).
  - rewrite (failed_heap _ _ _ H3), H2, H1. cbn [destroy_held from_option].
    rewrite list_lookup_alter_eq, H4. cbn. f_equal. lia.
  - destruct (runner (js req)).
    + cbn [started heap on_heap on_this]. rewrite warned_heap, H1.
      rewrite lookup_app_l by (rewrite length_alter; by eapply lookup_lt_Some).
      rewrite H4. cbn. f_equal. lia.
    + rewrite failed_heap by exact H6.
      cbn [this on_this _runner set_runner destroy_held from_option heap].
      rewrite warned_heap, H1, H4. cbn. f_equal. lia.
    + rewrite (failed_heap _ _ _ H6), H7, warned_heap, H1.
      cbn [destroy_held from_option]. rewrite list_lookup_alter_eq, H4. cbn. f_equal. lia.
Qed.

Lemma X10_destroy_calls_scenario :
  let w := Demo.play [Do_run "a"] in
  let fatal := Demo.request "b" [] [Demo.diagnostic] in
  let clean := Demo.request "b" [] [] in
  handles w = [None; None; None] ∧ _runner (this w) = Some 0 ∧
  r_destroy_calls <$> heap w !! 0 = Some 0 ∧
  r_destroy_calls <$> heap (world_of (runTranspiled Demo.runner fatal w)) !! 0 = Some 2 ∧
  r_destroy_calls <$> heap (world_of (runTranspiled Demo.runner clean w)) !! 0 = Some 1.
Proof.
  intros w fatal clean.
  set (x := wired {| parse := 1; check := 1; transpile := 1 |} "js(a)" "bytecode(js(a))").
  assert (Hh : handles w = [None; None; None]) by (vm_compute; reflexivity).
  assert (Hr : _runner (this w) = Some 0) by (vm_compute; reflexivity).
  assert (Hx : heap w !! 0 = Some x) by (vm_compute; reflexivity).
  split; [exact Hh |]. split; [exact Hr |]. split; [by rewrite Hx |]. split.
  - exact (X10_destroy_calls_of_a_launch Demo.runner fatal w 0 x Hh Hr Hx).
  - exact (X10_destroy_calls_of_a_launch Demo.runner clean w 0 x Hh Hr Hx).
Defined.

(** X11: a second [reset] in a row changes nothing of the object and,
    like the first, emits nothing; and since [reset] keeps the handle in
    [_runner], the second one calls [destroy()] on the same runner again. *)
Theorem X11_reset_twice (c : bool) (w : World) :
  let w1 := world_of (reset c w) in
  let w2 := world_of (reset c w1) in
  this w2 = this w1 ∧
  host w2 = host w ∧
  _runner (this w1) = _runner (this w) ∧
  heap w2 =
    destroy_held (_runner (this w))
      (close_held (_running_s (this w))
         (close_held (_waitingForInput_s (this w))
            (close_held (_stdOut_s (this w)) (heap w1)))).
Proof.
  cbv zeta.
  pose proof (reset_heap c (after_reset c w)) as Hheap.
  pose proof (reset_this c (after_reset c w)) as Hthis2.
  pose proof (reset_host c (after_reset c w)) as Hhost2.
  pose proof (reset_this c w) as Hthis1.
  pose proof (reset_host c w) as Hhost1.
  unfold after_reset in *.
  rewrite Hheap, Hthis2, Hhost2, Hhost1, Hthis1. by destruct c.
Qed.

Lemma launch_then_event runner (req : Request) (bc : string) (event : PortugolEvent)
    (w : World) :
  parseErrors req = [] →
  runner (js req) = Built bc →
  runner_run_next (length (heap w)) event (world_of (runTranspiled runner req w)) =
  (on_event (times req) event;; mret tt) (world_of (runTranspiled runner req w)).
Proof.
  intros Hp Hb. rewrite (runTranspiled_built _ _ _ _ Hp Hb).
  unfold runner_run_next, runner_gets. rewrite bind_eq.
  cbn [started heap on_heap on_this].
  rewrite <- (reset_heap_length true w), <- (warned_heap req), lookup_last.
  reflexivity.
Qed.

(** X14: a [finish] event from a runner is handled with the timings of the
    launch that constructed that runner: the completion line with the
    event's time is appended to the transcript, the transcript is emitted,
    [#printTimes] is called with those timings and the event's time, and
    the event is passed on. *)
Theorem X14_finish_reports_the_timings_of_its_launch runner (req : Request)
    (bc : string) (time : Z) (w : World) :
  parseErrors req = [] →
  runner (js req) = Built bc →
  let w1 := world_of (runTranspiled runner req w) in
  let w2 := world_of (runner_run_next (length (heap w)) (Ev_finish time) w1) in
  stdOut (this w2) = stdOut (this w1) ++ finish_line time ∧
  stdOut_s (host w2) = (stdOut_s (host w1) ++ [stdOut (this w2)])%list ∧
  printTimes_calls (host w2) =
    (printTimes_calls (host w1) ++ [(times req, Some time)])%list ∧
  events (host w2) = (events (host w1) ++ [Ev_finish time])%list.
Proof.
  intros Hp Hb w1 w2. subst w2 w1. by rewrite (launch_then_event _ _ _ _ _ Hp Hb).
Qed.

Lemma X14_finish_scenario :
  let req := Demo.request "programa { }" [] [] in
  let w1 := world_of (runTranspiled Demo.runner req new_executor) in
  let w2 := world_of (runner_run_next 0 (Ev_finish 42) w1) in
  parseErrors req = [] ∧ Demo.runner (js req) = Built "bytecode(js)" ∧
  stdOut (this w2) = stdOut (this w1) ++ finish_line 42 ∧
  printTimes_calls (host w2) =
    [({| parse := 1; check := 2; transpile := 3 |}, Some 42%Z)].
Proof.
  intros req w1 w2.
  destruct (X14_finish_reports_the_timings_of_its_launch Demo.runner req "bytecode(js)" 42
              new_executor eq_refl eq_refl) as (H1 & _ & H2 & _).
  split; [reflexivity |]. split; [reflexivity |]. split; [exact H1 | exact H2].
Defined.

(** ** The condition of the banner *)

(** X16: the legacy-dialect banner is appended exactly when the code text
    contains one of the five keywords somewhere, as a substring: inside a
    longer word, a string literal or a comment as well. *)
Theorem X16_banner_iff_a_keyword_occurs (code : string) (w : World) :
  (uses_algol code = true ↔
   ∃ keyword a b, keyword ∈ algol_keywords ∧ code = a ++ keyword ++ b) ∧
  stdOut (this (world_of (argueAboutAlgolIfNeeded code w))) =
    stdOut (this w) ++ (if uses_algol code then algol_banner else "").
Proof.
  split.
  - unfold uses_algol. rewrite existsb_exists. split.
    + intros (k & Hin & (a & b & H)%includes_spec).
      exists k, a, b. split; [by apply list_elem_of_In | exact H].
    + intros (k & a & b & Hin & H). exists k.
      split; [by apply list_elem_of_In | apply includes_spec; eauto].
  - by rewrite argueAboutAlgolIfNeeded_eq.
Qed.

(** ** More on the pipeline *)

Section MorePipelineFacts.

Context {Tree : Type}.
Variable arquivo : string → list PortugolCodeError * option Tree.
Variable checkTree : Tree → option (list PortugolCodeError).
Variable visit : Tree → option string.
Variable runner : string → Construction.
Variable now : nat → Z.

#[local] Abbreviation the_bundle := (bundle arquivo checkTree visit now).

(** X15: with a clock that never runs backwards, the timing of every phase
    that completed is non-negative, and the timing of every phase that was
    never started, because an earlier phase threw, is exactly zero. *)
Theorem X15_timings_of_completed_and_unreached_phases (text : string) (w : World) :
  (∀ i j : nat, (i ≤ j)%nat → (now i ≤ now j)%Z) →
  let t := times (the_bundle text w) in
  match snd (arquivo text) with
  | None => check t = 0%Z ∧ transpile t = 0%Z
  | Some tree =>
      (0 ≤ parse t)%Z ∧
      match checkTree tree with
      | None => transpile t = 0%Z
      | Some _ =>
          (0 ≤ check t)%Z ∧
          match visit tree with
          | None => True
          | Some _ => (0 ≤ transpile t)%Z
          end
      end
  end.
Proof.
  intros Hmono t. subst t. rewrite bundle_times. cbv zeta.
  pose proof (Hmono (ticks w) (1 + ticks w)).
  pose proof (Hmono (2 + ticks w) (3 + ticks w)).
  pose proof (Hmono (4 + ticks w) (5 + ticks w)).
  destruct (snd (arquivo text)) as [tree |]; [| by split].
  destruct (checkTree tree).
  - destruct (visit tree); cbn [parse check transpile]; repeat split; lia.
  - cbn [parse check transpile]. split; [lia | reflexivity].
Qed.

End MorePipelineFacts.

Lemma X15_checker_throws_scenario :
  let t := times (bundle Demo.arquivo Demo.checkTree Demo.visit Demo.now "x = "
                    new_executor) in
  (∀ i j : nat, (i ≤ j)%nat → (Demo.now i ≤ Demo.now j)%Z) ∧
  (0 ≤ parse t)%Z ∧ transpile t = 0%Z.
Proof.
  intros t.
  assert (Hmono : ∀ i j : nat, (i ≤ j)%nat → (Demo.now i ≤ Demo.now j)%Z)
    by (intros i j H; unfold Demo.now; lia).
  split; [exact Hmono |].
  exact (X15_timings_of_completed_and_unreached_phases
           Demo.arquivo Demo.checkTree Demo.visit Demo.now "x = " new_executor Hmono).
Defined.

(** ** The subscriptions of a runner over time *)

Lemma kept_core (r : nat) s (w w' : World) : core w' = core w → kept r s w → kept r s w'.
Proof.
  unfold kept. intros H.
  pose proof (f_equal (fun p => fst (fst (fst p))) H) as H1.
  pose proof (f_equal (fun p => snd (fst (fst p))) H) as H2.
  cbn [core fst snd] in H1, H2. by rewrite H1, H2.
Qed.

Lemma kept_alter (f : Runner → Runner) (i r : nat) s (w w' : World) :
  (∀ x, subscriptions (f x) = subscriptions x) →
  handles w' = handles w → heap w' = alter f i (heap w) →
  kept r s w → kept r s w'.
Proof.
  intros Hf H1 H2 [Hh Hs]. unfold kept. rewrite H1, H2. split; [exact Hh |].
  by rewrite <- list_lookup_fmap, (fmap_alter_unchanged _ _ _ _ Hf), list_lookup_fmap.
Qed.

Lemma after_reset_kept (c : bool) (r : nat) s (w : World) :
  kept r s w → kept r s (after_reset c w).
Proof.
  intros Hw. pose proof Hw as [Hh _].
  pose proof (reset_handles c w) as H1.
  pose proof (reset_heap_nothing_held c w Hh) as H2.
  destruct (_runner (this w)) as [i |].
  - by apply (kept_alter call_destroy i r s w).
  - destruct Hw as [_ Hs]. unfold kept. by rewrite H1, H2.
Qed.

Lemma failed_kept (req : Request) (error : string) (r : nat) s (w : World) :
  kept r s w → kept r s (failed req error w).
Proof.
  intros Hw. unfold failed.
  eapply kept_core; [| apply (after_reset_kept false);
                       eapply kept_core; [| exact Hw]]; reflexivity.
Qed.

Lemma started_kept (req : Request) (bc : string) (r : nat) s (w : World) :
  kept r s w → kept r s (started req bc w).
Proof.
  intros [Hh Hs]. split; [exact Hh |].
  cbn [started heap on_heap on_this]. rewrite lookup_app_l; [exact Hs |].
  destruct (heap w !! r) eqn:E; [by eapply lookup_lt_Some | discriminate].
Qed.

Lemma runTranspiled_kept runner (req : Request) (r : nat) s (w : World) :
  kept r s w → kept r s (world_of (runTranspiled runner req w)).
Proof.
  intros Hw. rewrite runTranspiled_eq. cbn [world_of]. cbv zeta.
  assert (H1 : kept r s (warned req (after_reset true w))).
  { eapply kept_core; [apply warned_core |]. by apply after_reset_kept. }
  destruct (Nat.ltb 0 (length (parseErrors req))).
  - by apply failed_kept, after_reset_kept.
  - destruct (runner (js req)).
    + by apply started_kept.
    + apply failed_kept. exact H1.
    + by apply failed_kept.
Qed.

Lemma stdIn_next_kept (data : string) (r : nat) s (w : World) :
  kept r s w → kept r s (world_of (stdIn_next data w)).
Proof.
  intros Hw. destruct (stdIn_next_cases data) as [-> | [-> | H]].
  - rewrite stdIn_next_BS. cbn [world_of].
    eapply kept_core; [| exact Hw].
    by destruct (Nat.ltb 0 (String.length (stdInBuffer (this w)))).
  - rewrite stdIn_next_CR. cbn [world_of].
    destruct (_runner (this w)) as [i |] eqn:E.
    + by apply (kept_alter (receive_stdIn (stdInBuffer (this w))) i r s w).
    + by eapply kept_core; [| exact Hw].
  - rewrite (stdIn_next_ordinary _ _ H). by eapply kept_core; [| exact Hw].
Qed.

Lemma perform_kept {Tree} (arquivo : string → list PortugolCodeError * option Tree)
    checkTree visit runner now (a : Action) (r : nat) s (w : World) :
  kept r s w → kept r s (world_of (perform arquivo checkTree visit runner now a w)).
Proof.
  intros Hw. destruct a; cbn [perform].
  - by apply stdIn_next_kept.
  - rewrite run_eq. apply runTranspiled_kept.
    eapply kept_core; [apply handover_core | exact Hw].
  - by apply runTranspiled_kept.
  - by apply after_reset_kept.
  - unfold runner_stdOut_next, runner_gets. rewrite bind_eq.
    apply (for_each_invariant (kept r s)); [| exact Hw].
    intros _ w' Hw'. by eapply kept_core; [| exact Hw'].
  - unfold runner_waitingForInput_next, runner_gets. rewrite bind_eq.
    apply (for_each_invariant (kept r s)); [| exact Hw].
    intros _ w' Hw'. by eapply kept_core; [| exact Hw'].
  - unfold runner_running_next, runner_gets. rewrite bind_eq.
    apply (for_each_invariant (kept r s)); [| exact Hw].
    intros _ w' Hw'. by eapply kept_core; [| exact Hw'].
  - unfold runner_run_next, runner_gets. rewrite bind_eq.
    apply (for_each_invariant (kept r s)); [| exact Hw].
    intros t w' Hw'. eapply kept_core; [apply on_event_core | exact Hw'].
Qed.

(** A launch that gets its runner leaves it with one open subscription per
    stream, the lifecycle one closing over the timings of the bundle. *)
Lemma runTranspiled_wires runner (req : Request) (bc : string) (w : World) :
  handles w = [None; None; None] →
  parseErrors req = [] →
  runner (js req) = Built bc →
  kept (length (heap w)) ([true], [true], [true], [(true, times req)])
    (world_of (runTranspiled runner req w)).
Proof.
  intros Hw Hp Hb. split; [by rewrite runTranspiled_handles |].
  rewrite (runTranspiled_built _ _ _ _ Hp Hb). cbn [started heap on_heap on_this].
  by rewrite <- (reset_heap_length true w), <- (warned_heap req), lookup_last.
Qed.

(** X8: a runner keeps being forwarded exactly once, for good.  Launch a
    bundle for which a runner is constructed, from a world that holds no
    subscription in the private fields (as every reachable world does), and
    let any calls and emissions follow: keystrokes, further launches, stops,
    values from any runner.  Then a value pushed by that runner, current or
    retired by now, is forwarded exactly once: an output chunk is appended
    to the transcript and emitted; a pending-input or running flag is stored
    in the field and emitted; a lifecycle event is handled once, with the
    timings of the bundle of that launch. *)
Theorem X8_every_runner_is_forwarded_once {Tree}
    (arquivo : string → list PortugolCodeError * option Tree)
    (checkTree : Tree → option (list PortugolCodeError)) (visit : Tree → option string)
    (runner : string → Construction) (now : nat → Z)
    (req : Request) (bc : string) (l : list Action) (w0 : World) :
  handles w0 = [None; None; None] →
  parseErrors req = [] →
  runner (js req) = Built bc →
  let r := length (heap w0) in
  let w := world_of (perform_all arquivo checkTree visit runner now l
                       (world_of (runTranspiled runner req w0))) in
  (∀ data, runner_stdOut_next r data w =
           Normal tt (on_host (push_stdOut_s data)
                        (on_this (set_stdOut (stdOut (this w) ++ data)) w))) ∧
  (∀ b, runner_waitingForInput_next r b w =
        Normal tt (on_host (push_waitingForInput_s b)
                     (on_this (set_waitingForInput b) w))) ∧
  (∀ b, runner_running_next r b w =
        Normal tt (on_host (push_running_s b) (on_this (set_running b) w))) ∧
  (∀ event, runner_run_next r event w = on_event (times req) event w).
Proof.
  intros Hw Hp Hb r w.
  assert (Hk : kept r ([true], [true], [true], [(true, times req)]) w).
  { subst w. unfold perform_all.
    apply (for_each_invariant (kept r _)); [| by apply (runTranspiled_wires _ _ bc)].
    intros a w'. apply perform_kept. }
  destruct Hk as [_ Hs]. destruct (heap w !! r) as [x |] eqn:Hx; [| discriminate].
  injection Hs as H1 H2 H3 H4.
  split; [| split; [| split]].
  - intros data. by apply (runner_stdOut_next_once r x).
  - intros b. unfold runner_waitingForInput_next, runner_gets.
    rewrite bind_eq, Hx. cbn [from_option]. by rewrite H2.
  - intros b. unfold runner_running_next, runner_gets.
    rewrite bind_eq, Hx. cbn [from_option]. by rewrite H3.
  - intros event. unfold runner_run_next, runner_gets.
    rewrite bind_eq, Hx. cbn [from_option]. rewrite H4.
    destruct (on_event_returns (times req) event w) as [w' Hw'].
    rewrite Hw'. by apply for_each_one.
Qed.

Lemma X8_retired_runner_scenario :
  let req := Demo.request "programa { }" [] [] in
  let w := world_of (perform_all Demo.arquivo Demo.checkTree Demo.visit Demo.runner
                       Demo.now [Do_stdIn "x"; Do_run "b"; Do_stop]
                       (world_of (runTranspiled Demo.runner req new_executor))) in
  handles new_executor = [None; None; None] ∧ parseErrors req = [] ∧
  Demo.runner (js req) = Built "bytecode(js)" ∧
  _runner (this w) = Some 1 ∧
  runner_running_next 0 true w =
    Normal tt (on_host (push_running_s true) (on_this (set_running true) w)) ∧
  (∀ event, runner_run_next 0 event w =
            on_event {| parse := 1; check := 2; transpile := 3 |} event w).
Proof.
  intros req w.
  destruct (X8_every_runner_is_forwarded_once Demo.arquivo Demo.checkTree Demo.visit
              Demo.runner Demo.now req "bytecode(js)" [Do_stdIn "x"; Do_run "b"; Do_stop]
              new_executor eq_refl eq_refl eq_refl) as (_ & _ & Hrun & Hev).
  split; [reflexivity |]. split; [reflexivity |]. split; [reflexivity |].
  split; [by vm_compute |]. split; [apply Hrun | exact Hev].
Defined.
